(** * web-wallet: the wallet session and the gas-price client

    Shallow embedding of the two source files of the repository:
    - [api.js]: the axios instance [gasApi] and [ETHGAS.getGasPrice];
    - the wallet file: the constructor function [WebWallet] with the
      closures it exposes ([connect], [addToken], [lock], [unlock], the
      getters, the two history queries, [sendEther], [sendToken],
      [removeToken]).

    The program is JavaScript.  Its mutable fields ([this.wallet],
    [this.isLocked], ...) are a record threaded through a state-and-exception
    monad; exceptions do not roll the record back.  Every call that leaves
    the program (the ethers library's key store, the JSON-RPC provider, the
    block explorer, axios) is written to a trace and answered by an oracle
    that may depend on the whole trace so far, so a run of the model against
    an oracle is a run of the program against one behaviour of the outside
    world.  In [exec] and [run] each exposed method is run to completion
    before the next one starts (the caller awaits every call); in [move] and
    [play] the methods that assign fields after their [await] are cut
    there, and the halves of different calls interleave. *)

From Stdlib Require Import ZArith List String Ascii Bool Lia DecimalString.
Import ListNotations.

#[local] Open Scope string_scope.
#[local] Open Scope list_scope.
#[local] Open Scope Z_scope.

(** ** JavaScript completions *)

Module Js.

(** What a [throw] or a rejected promise carries. *)
Inductive Exn : Type :=
| Error (message : string)          (* new Error(message) *)
| TypeError (message : string)      (* raised by the engine, e.g. a property read on null *)
| NumericFault (fault : string)     (* ethers' NUMERIC_FAULT: overflow, division-by-zero, ... *)
| Failure (code : string).          (* any other failure of a collaborator *)

(** How a call ends, seen by the caller: a synchronous function returns or
    throws, an [async] function hands back a promise that resolves or
    rejects. *)
Inductive Outcome (A : Type) : Type :=
| Returned (a : A)
| Thrown (e : Exn)
| Resolved (a : A)
| Rejected (e : Exn).
Arguments Returned {A} a.
Arguments Thrown {A} e.
Arguments Resolved {A} a.
Arguments Rejected {A} e.

(** [x || d] on a possibly missing string argument. *)
Definition or_else (x : option string) (d : string) : string :=
  match x with
  | Some s => if String.eqb s "" then d else s
  | None => d
  end.

(** A default parameter [x = d]. *)
Definition default {A} (x : option A) (d : A) : A :=
  match x with
  | Some a => a
  | None => d
  end.

(** The values a JSON body or a plain object is made of.  Numbers are kept
    as integers; nothing below computes with them. *)
#[local] Unset Elimination Schemes.
Inductive Value : Type :=
| Null
| Bool (b : bool)
| Number (n : Z)
| Str (s : string)
| Array (items : list Value)
| Object (props : list (string * Value)).
#[local] Set Elimination Schemes.

End Js.
Import Js.

(** ** ethers.BigNumber

    Arbitrary-precision integers.  [div] truncates toward zero and faults on
    a zero divisor, [pow] faults on a negative exponent, [toNumber] faults
    when the value does not fit the 53 bits a JavaScript number holds
    exactly. *)

Module BigNumber.

Definition pow (b e : Z) : Exn + Z :=
  if e <? 0 then inl (NumericFault "negative-power") else inr (b ^ e).

Definition div (a b : Z) : Exn + Z :=
  if b =? 0 then inl (NumericFault "division-by-zero") else inr (Z.quot a b).

Definition mul (a b : Z) : Z := a * b.

Definition toNumber (a : Z) : Exn + Z :=
  if Z.abs a <? 2 ^ 53 then inr a else inl (NumericFault "overflow").

Definition toString (a : Z) : string := NilZero.string_of_int (Z.to_int a).

End BigNumber.

(** ** The ethers objects the wallet holds *)

Record Provider : Type := { provider_network : string }.

(** An [ethers.Wallet]: the key, the optional mnemonic phrase it was derived
    from and the provider it is connected to.  Its [address] is computed
    from the key (see [World.computeAddress]). *)
Record Signer : Type := {
  privateKey : string;
  mnemonic : option string;
  signer_provider : option Provider
}.

(** [wallet.connect(provider)]: the same key on another provider. *)
Definition Signer_connect (w : Signer) (p : Provider) : Signer :=
  {| privateKey := privateKey w; mnemonic := mnemonic w; signer_provider := Some p |}.

(** [wallet.connect(provider)] where [provider] may be [null]: the new
    wallet's [provider] property is then [null] as well. *)
Definition Signer_rebind (w : Signer) (p : option Provider) : Signer :=
  {| privateKey := privateKey w; mnemonic := mnemonic w; signer_provider := p |}.

(** [new ethers.Contract(address, ERC20_ABI, signer)]. *)
Record Contract : Type := {
  contract_address : string;
  contract_signer : Signer
}.

Inductive BlockTag : Type :=
| BlockNumber (n : Z)
| BlockName (name : string).

(** A transaction as the provider or the block explorer reports it. *)
Record TransactionResponse : Type := {
  tx_hash : string;
  tx_from : string;
  tx_to : option string;              (* null for a contract creation *)
  tx_value : Z;
  tx_timestamp : option Z
}.

(** The request object [sendEther] builds. *)
Record TransactionRequest : Type := {
  req_nonce : Z;
  req_to : string;
  req_value : Z;
  req_gasPrice : Z
}.

(** A decoded [Transfer(from, to, amount)] log entry; the amount is a
    [uint256]. *)
Record TransferEvent : Type := {
  ev_transactionHash : string;
  ev_from : string;
  ev_to : string;
  ev_amount : N
}.

(** The entries of [data.args], in ABI order. *)
Inductive Arg : Type :=
| ArgAddress (a : string)
| ArgUint (n : N).

Definition args (data : TransferEvent) : list Arg :=
  [ArgAddress (ev_from data); ArgAddress (ev_to data); ArgUint (ev_amount data)].

(** [x === address] for an entry of [data.args]: a BigNumber object is never
    strictly equal to a string. *)
Definition Arg_is (address : string) (x : Arg) : bool :=
  match x with
  | ArgAddress a => String.eqb a address
  | ArgUint _ => false
  end.

(** What an axios request resolves to: the response envelope.  The parsed
    body is its [data] property.  (The [config] and [request] properties,
    which echo the request, are left out.) *)
Record AxiosResponse : Type := {
  data : Value;
  status : Z;
  statusText : string;
  headers : list (string * string)
}.

(** The envelope as the plain object the caller receives. *)
Definition response_object (r : AxiosResponse) : Value :=
  Object [("data", data r);
          ("status", Number (status r));
          ("statusText", Str (statusText r));
          ("headers", Object (map (fun h => (fst h, Str (snd h))) (headers r)))].

(** ** Calls that leave the program *)

Inductive Call : Type :=
| CallEncrypt (w : Signer) (password : string)
| CallFromEncryptedJson (json password : string)
| CallGetTransactionCount (w : Signer)
| CallGetBalance (w : Signer)
| CallDecimals (c : Contract)
| CallBalanceOf (c : Contract) (owner : string)
| CallQueryFilter (c : Contract) (event : string)
| CallGetHistory (network address : string) (startBlock endBlock : BlockTag)
| CallSendTransaction (w : Signer) (request : TransactionRequest)
| CallTransfer (c : Contract) (to amount : string) (gasPrice nonce : Z)
| CallHttpGet (url : string) (timeout : Z).

Definition Trace := list Call.

(** The collaborators.  The first group are pure functions of the ethers
    library; the second group answer the calls above and see the trace of
    everything asked before.  [ethers.getDefaultProvider] throws for a
    network it does not know and returns [null] for a known network that
    none of its backends serves. *)
Record World : Type := {
  computeAddress : string -> string;
  getDefaultProvider : string -> Exn + option Provider;
  EtherscanProvider : string -> Exn + Provider;
  utils_getAddress : string -> Exn + string;
  utils_parseUnits : string -> Z -> Exn + Z;
  utils_formatEther : Z -> string;
  BigNumber_from : string -> Exn + Z;

  encrypt : Trace -> Signer -> string -> Exn + string;
  fromEncryptedJson : Trace -> string -> string -> Exn + Signer;
  getTransactionCount : Trace -> Signer -> Exn + Z;
  getBalance : Trace -> Signer -> Exn + Z;
  decimals : Trace -> Contract -> Exn + Z;
  balanceOf : Trace -> Contract -> string -> Exn + N;
  queryFilter : Trace -> Contract -> string -> Exn + list TransferEvent;
  getHistory : Trace -> string -> string -> BlockTag -> BlockTag ->
               Exn + list TransactionResponse;
  sendTransaction : Trace -> Signer -> TransactionRequest -> Exn + TransactionResponse;
  transfer : Trace -> Contract -> string -> string -> Z -> Z -> Exn + TransactionResponse;
  http_get : Trace -> string -> Z -> Exn + AxiosResponse
}.

(** [wallet.address]. *)
Definition address (W : World) (w : Signer) : string :=
  computeAddress W (privateKey w).

(** ** api.js *)

Module Api.

(** [axios.create({ baseURL, timeout })]. *)
Record AxiosInstance : Type := {
  baseURL : string;
  timeout : Z
}.

Definition gasApi : AxiosInstance :=
  {| baseURL := "https://ethgasstation.info/json/ethgasAPI.json";
     timeout := 10000 |}.

(** [instance.get()] with no path: one GET request to [baseURL] under the
    instance's timeout (milliseconds); the promise resolves to the response
    envelope or rejects with the transport's error. *)
Definition axios_get (W : World) (instance : AxiosInstance) (t : Trace)
  : Outcome Value * Trace :=
  (match http_get W t (baseURL instance) (timeout instance) with
   | inl e => Rejected e
   | inr response => Resolved (response_object response)
   end,
   t ++ [CallHttpGet (baseURL instance) (timeout instance)]).

(** [ETHGAS.getGasPrice = _ => gasApi.get()]. *)
Definition getGasPrice (W : World) (t : Trace) : Outcome Value * Trace :=
  axios_get W gasApi t.

End Api.

(** ** The wallet file *)

(** An entry of [this.tokens]. *)
Record Token : Type := {
  token_symbol : string;
  token_address : string;
  token_decimals : Z;
  oneToken : Z;
  contract : Contract
}.

(** The fields of [this]. *)
Record Session : Type := {
  this_wallet : option Signer;
  this_isLocked : bool;
  this_tokens : list Token;
  this_provider : option Provider;
  this_transactionNonce : option Z;   (* null until setNonce or the first send *)
  this_network : string;
  this_encryptedJsonWallet : string
}.

(** The program's state: its fields and the calls made so far. *)
Record State : Type := {
  session : Session;
  trace : Trace
}.

(** *** The monad of method bodies *)

Definition M (A : Type) : Type := State -> (Exn + A) * State.

Definition ret {A} (a : A) : M A := fun st => (inr a, st).

Definition throw {A} (e : Exn) : M A := fun st => (inl e, st).

Definition bind {A B} (m : M A) (k : A -> M B) : M B :=
  fun st =>
    match m st with
    | (inl e, st') => (inl e, st')
    | (inr a, st') => k a st'
    end.

Declare Scope wallet_scope.
Delimit Scope wallet_scope with wallet.
Notation "x <- m ;; k" := (bind m (fun x => k))
  (at level 61, m at next level, right associativity) : wallet_scope.
Notation "m ;;; k" := (bind m (fun _ => k))
  (at level 61, right associativity) : wallet_scope.
#[local] Open Scope wallet_scope.

Definition this : M Session := fun st => (inr (session st), st).

Definition assign (f : Session -> Session) : M unit :=
  fun st => (inr tt, {| session := f (session st); trace := trace st |}).

(** A value or an exception computed without touching the state. *)
Definition lift {A} (r : Exn + A) : M A := fun st => (r, st).

(** [await] on a call to a collaborator: the call is recorded and the
    collaborator's answer, given what it has been asked so far, is the
    result. *)
Definition await {A} (c : Call) (answer : Trace -> Exn + A) : M A :=
  fun st => (answer (trace st),
             {| session := session st; trace := trace st ++ [c] |}).

(** A plain function called on a state. *)
Definition sync {A} (m : M A) (st : State) : Outcome A * State :=
  match m st with
  | (inl e, st') => (Thrown e, st')
  | (inr a, st') => (Returned a, st')
  end.

(** An [async] function called on a state: a [throw] in its body and a
    returned [Promise.reject] both reject the promise. *)
Definition async {A} (m : M A) (st : State) : Outcome A * State :=
  match m st with
  | (inl e, st') => (Rejected e, st')
  | (inr a, st') => (Resolved a, st')
  end.

(** *** Field updates *)

Definition set_wallet (w : option Signer) (s : Session) : Session :=
  {| this_wallet := w; this_isLocked := this_isLocked s; this_tokens := this_tokens s;
     this_provider := this_provider s; this_transactionNonce := this_transactionNonce s;
     this_network := this_network s;
     this_encryptedJsonWallet := this_encryptedJsonWallet s |}.

Definition set_isLocked (b : bool) (s : Session) : Session :=
  {| this_wallet := this_wallet s; this_isLocked := b; this_tokens := this_tokens s;
     this_provider := this_provider s; this_transactionNonce := this_transactionNonce s;
     this_network := this_network s;
     this_encryptedJsonWallet := this_encryptedJsonWallet s |}.

Definition set_tokens (l : list Token) (s : Session) : Session :=
  {| this_wallet := this_wallet s; this_isLocked := this_isLocked s; this_tokens := l;
     this_provider := this_provider s; this_transactionNonce := this_transactionNonce s;
     this_network := this_network s;
     this_encryptedJsonWallet := this_encryptedJsonWallet s |}.

Definition set_provider (p : option Provider) (s : Session) : Session :=
  {| this_wallet := this_wallet s; this_isLocked := this_isLocked s;
     this_tokens := this_tokens s;
     this_provider := p; this_transactionNonce := this_transactionNonce s;
     this_network := this_network s;
     this_encryptedJsonWallet := this_encryptedJsonWallet s |}.

Definition set_transactionNonce (n : option Z) (s : Session) : Session :=
  {| this_wallet := this_wallet s; this_isLocked := this_isLocked s;
     this_tokens := this_tokens s;
     this_provider := this_provider s; this_transactionNonce := n;
     this_network := this_network s;
     this_encryptedJsonWallet := this_encryptedJsonWallet s |}.

Definition set_network (n : string) (s : Session) : Session :=
  {| this_wallet := this_wallet s; this_isLocked := this_isLocked s;
     this_tokens := this_tokens s;
     this_provider := this_provider s; this_transactionNonce := this_transactionNonce s;
     this_network := n;
     this_encryptedJsonWallet := this_encryptedJsonWallet s |}.

Definition set_encryptedJsonWallet (json : string) (s : Session) : Session :=
  {| this_wallet := this_wallet s; this_isLocked := this_isLocked s;
     this_tokens := this_tokens s;
     this_provider := this_provider s; this_transactionNonce := this_transactionNonce s;
     this_network := this_network s;
     this_encryptedJsonWallet := json |}.

(** *** The closures of [WebWallet] *)

Section Closures.

Variable W : World.

Definition locked_error : Exn := Error "Wallet is locked!".

(** What reading a property of [this.wallet] raises when it is null. *)
Definition null_wallet : Exn := TypeError "Cannot read properties of null".

(** [this.wallet.<property>]: the receiver is evaluated, and checked,
    before anything that follows it in the same expression. *)
Definition the_wallet : M Signer :=
  s <- this;;
  match this_wallet s with
  | Some w => ret w
  | None => throw null_wallet
  end.

(** [initWallet]: the argument is typed as a signer here, so of the three
    tests of the source only the first (a missing signer) can fire. *)
Definition initWallet (signer : option Signer) : M unit :=
  match signer with
  | None =>
      throw (Error "Signer cannot be empty! Signer should be an instance of ethers.Signer!")
  | Some w =>
      assign (set_wallet (Some w));;;
      assign (set_isLocked false)
  end.

(** The ABI every token contract of the wallet is built from. *)
Definition ERC20_ABI : list string :=
  ["function balanceOf(address owner) view returns (uint)";
   "function transfer(address to, uint256 amount)";
   "event Transfer(address indexed from, address indexed to, uint256 amount)"].

(** [ethers.Contract] defines one method per function fragment of its ABI,
    under the fragment's name. *)
Definition declares (abi : list string) (name : string) : bool :=
  existsb (String.prefix ("function " ++ name ++ "(")%string) abi.

(** [contract.<name>(...)]: calling a property the contract does not have
    throws a [TypeError], and nothing is asked. *)
Definition contract_method {A : Type} (name : string) (call : M A) : M A :=
  if declares ERC20_ABI name then call
  else throw (TypeError ("contract." ++ name ++ " is not a function")%string).

Definition createERC20TokenContract (signer : option Signer) (addr : string)
  : Exn + Contract :=
  match signer with
  | None => inl (Error "There is no signer or network provider!")
  | Some w =>
      match signer_provider w with
      | None => inl (Error "There is no signer or network provider!")
      | Some _ => inr {| contract_address := addr; contract_signer := w |}
      end
  end.

Definition connect (network : option string) : M unit :=
  let network := default network "homestead" in
  s <- this;;
  match this_wallet s with
  | None =>
      throw (Error "Wallet is null! You cannot connect to the network without a wallet!")
  | Some w =>
      p <- lift (getDefaultProvider W network);;
      assign (set_provider p);;;
      assign (set_network network);;;
      assign (set_wallet (Some (Signer_rebind w p)))
  end.

(** [this.tokens.find(token => token.address === a)]. *)
Definition find_token (a : string) (tokens : list Token) : option Token :=
  find (fun token => String.eqb (token_address token) a) tokens.

(** [ERC20_ABI] declares [balanceOf], [transfer] and the [Transfer] event
    only, so [contract.decimals] is undefined and the call on line 69 throws
    before anything is awaited; the rest of the body is kept as written. *)
Definition addToken (symbol addr : string) : M unit :=
  s <- this;;
  if this_isLocked s then throw locked_error
  else
    match find_token addr (this_tokens s) with
    | Some _ => ret tt
    | None =>
        c <- lift (createERC20TokenContract (this_wallet s) addr);;
        d <- contract_method "decimals"
               (await (CallDecimals c) (fun t => decimals W t c));;
        one <- lift (BigNumber.pow 10 d);;
        assign (fun s' =>
                  set_tokens (this_tokens s' ++
                              [{| token_symbol := symbol; token_address := addr;
                                  token_decimals := d; oneToken := one;
                                  contract := c |}]) s')
    end.

Definition lock (password : string) : M string :=
  s <- this;;
  (if String.eqb (this_encryptedJsonWallet s) ""
   then
     w <- the_wallet;;
     json <- await (CallEncrypt w password) (fun t => encrypt W t w password);;
     assign (set_encryptedJsonWallet json)
   else ret tt);;;
  assign (set_wallet None);;;
  assign (set_isLocked true);;;
  assign (set_provider None);;;
  assign (set_tokens []);;;
  assign (set_network "");;;
  s' <- this;;
  ret (this_encryptedJsonWallet s').

Definition unlock (password : string) : M unit :=
  s <- this;;
  w <- await (CallFromEncryptedJson (this_encryptedJsonWallet s) password)
             (fun t => fromEncryptedJson W t (this_encryptedJsonWallet s) password);;
  initWallet (Some w).

Definition isLocked : M bool :=
  s <- this;; ret (this_isLocked s).

Definition setNonce : M unit :=
  w <- the_wallet;;
  n <- await (CallGetTransactionCount w) (fun t => getTransactionCount W t w);;
  assign (set_transactionNonce (Some n)).

Definition getAddress : M string :=
  s <- this;;
  if this_isLocked s then throw locked_error
  else w <- the_wallet;; ret (address W w).

Definition getProvider : M (option Provider) :=
  s <- this;; ret (this_provider s).

Definition getNetwork : M string :=
  s <- this;; ret (this_network s).

Definition getPrivateKey : M string :=
  s <- this;;
  if this_isLocked s then throw locked_error
  else w <- the_wallet;; ret (privateKey w).

Definition getMnemonics : M (option string) :=
  s <- this;;
  if this_isLocked s then throw locked_error
  else w <- the_wallet;; ret (mnemonic w).

Definition getEtherBalance : M string :=
  s <- this;;
  if this_isLocked s then throw locked_error
  else
    w <- the_wallet;;
    wei <- await (CallGetBalance w) (fun t => getBalance W t w);;
    ret (utils_formatEther W wei).

Definition getTokenBalance (tokenAddress : string) : M Z :=
  s <- this;;
  if this_isLocked s then throw locked_error
  else
    match find_token tokenAddress (this_tokens s) with
    | None => throw (Error "Token does now exist!")
    | Some token =>
        w <- the_wallet;;
        balance <- await (CallBalanceOf (contract token) (address W w))
                         (fun t => balanceOf W t (contract token) (address W w));;
        q <- lift (BigNumber.div (Z.of_N balance) (oneToken token));;
        lift (BigNumber.toNumber q)
    end.

(** [SELF], [OUT] or [IN], as both history queries compute it. *)
Definition status_of (from_is to_is : bool) : string :=
  if from_is && to_is then "SELF" else if from_is then "OUT" else "IN".

Record EtherHistoryEntry : Type := {
  eh_transactionHash : string;
  eh_status : string;
  eh_from : string;
  eh_to : option string;
  eh_amount : string;
  eh_timestamp : option Z
}.

(** [data.to === address], where [data.to] may be null. *)
Definition to_is (to : option string) (addr : string) : bool :=
  match to with
  | Some a => String.eqb a addr
  | None => false
  end.

Definition ether_entry (addr : string) (data : TransactionResponse)
  : EtherHistoryEntry :=
  {| eh_transactionHash := tx_hash data;
     eh_status := status_of (String.eqb (tx_from data) addr) (to_is (tx_to data) addr);
     eh_from := tx_from data;
     eh_to := tx_to data;
     eh_amount := utils_formatEther W (tx_value data);
     eh_timestamp := tx_timestamp data |}.

(** The defaults are evaluated left to right when an argument is missing;
    [this.wallet.address] is read only when [address] is missing. *)
Definition getEtherHistory (network addr : option string)
                           (startBlock endBlock : option BlockTag)
  : M (list EtherHistoryEntry) :=
  s <- this;;
  let network := default network (this_network s) in
  addr <- match addr with
          | Some a => ret a
          | None => w <- the_wallet;; ret (address W w)
          end;;
  let startBlock := default startBlock (BlockNumber 0) in
  let endBlock := default endBlock (BlockName "latest") in
  _ <- lift (EtherscanProvider W network);;
  historyList <- await (CallGetHistory network addr startBlock endBlock)
                       (fun t => getHistory W t network addr startBlock endBlock);;
  ret (map (ether_entry addr) historyList).

Record TokenHistoryEntry : Type := {
  th_transactionHash : string;
  th_status : string;
  th_from : string;
  th_to : string;
  th_amount : string
}.

(** [data.args.some(address => address === this.wallet.address)]. *)
Definition involves (me : string) (data : TransferEvent) : bool :=
  existsb (Arg_is me) (args data).

(** The amount: [BigNumber.from(data.args[2]).div(BigNumber.from('10').pow(18)).toString()]. *)
Definition token_amount (data : TransferEvent) : Exn + string :=
  match BigNumber.pow 10 18 with
  | inl e => inl e
  | inr unit18 =>
      match BigNumber.div (Z.of_N (ev_amount data)) unit18 with
      | inl e => inl e
      | inr q => inr (BigNumber.toString q)
      end
  end.

Definition token_entry (me : string) (data : TransferEvent)
  : Exn + TokenHistoryEntry :=
  match token_amount data with
  | inl e => inl e
  | inr amount =>
      inr {| th_transactionHash := ev_transactionHash data;
             th_status := status_of (String.eqb (ev_from data) me)
                                    (String.eqb (ev_to data) me);
             th_from := ev_from data;
             th_to := ev_to data;
             th_amount := amount |}
  end.

(** [list.map(f)] for an [f] that may throw: the first exception ends it. *)
Fixpoint map_throwing {A B} (f : A -> Exn + B) (l : list A) : Exn + list B :=
  match l with
  | [] => inr []
  | x :: l' =>
      match f x with
      | inl e => inl e
      | inr y =>
          match map_throwing f l' with
          | inl e => inl e
          | inr ys => inr (y :: ys)
          end
      end
  end.

Definition getTokenHistory (tokenAddress : string) : M (list TokenHistoryEntry) :=
  s <- this;;
  if this_isLocked s then throw locked_error
  else
    match find_token tokenAddress (this_tokens s) with
    | None => throw (Error "Token does now exist!")
    | Some token =>
        historyList <- await (CallQueryFilter (contract token) "Transfer")
                             (fun t => queryFilter W t (contract token) "Transfer");;
        match historyList with
        | [] => ret []     (* the callbacks, and [this.wallet], are never evaluated *)
        | _ =>
            w <- the_wallet;;
            lift (map_throwing (token_entry (address W w))
                               (filter (involves (address W w)) historyList))
        end
    end.

(** [this.transactionNonce++]: the old value converted to a number (null
    counts as 0) is the result, one more is stored.  The count is kept in
    the integers; the source's number counts with it up to 2^53, where
    adding one no longer advances it. *)
Definition post_increment_nonce : M Z :=
  s <- this;;
  let old := match this_transactionNonce s with Some n => n | None => 0 end in
  assign (set_transactionNonce (Some (old + 1)));;;
  ret old.

Definition sendEther (to amount gas : string) (transactionSpeed : option string)
  : M TransactionResponse :=
  match utils_getAddress W to with
  | inl _ => throw (Error "Invalid Ethereum address")
  | inr _ =>
      w <- the_wallet;;
      nonce <- post_increment_nonce;;
      value <- lift (utils_parseUnits W amount 18);;
      gasPrice <- lift (utils_parseUnits W gas 9);;
      let request := {| req_nonce := nonce; req_to := to;
                        req_value := value; req_gasPrice := gasPrice |} in
      await (CallSendTransaction w request) (fun t => sendTransaction W t w request)
  end.

Definition sendToken (tokenAddress to amount gas : string)
                     (transactionSpeed : option string)
  : M TransactionResponse :=
  s <- this;;
  if this_isLocked s then throw locked_error
  else
    match find_token tokenAddress (this_tokens s) with
    | None => throw (Error "Token does not exist!")
    | Some token =>
        match utils_getAddress W to with
        | inl _ => throw (Error "Invalid Ethereum address!")
        | inr _ =>
            n <- lift (BigNumber_from W amount);;
            let units := BigNumber.toString (BigNumber.mul n (oneToken token)) in
            gasPrice <- lift (utils_parseUnits W gas 9);;
            nonce <- post_increment_nonce;;
            await (CallTransfer (contract token) to units gasPrice nonce)
                  (fun t => transfer W t (contract token) to units gasPrice nonce)
        end
    end.

Definition removeToken (addr : string) : M unit :=
  s <- this;;
  if this_isLocked s then throw locked_error
  else
    match find_token addr (this_tokens s) with
    | None => ret tt
    | Some _ =>
        assign (set_tokens
                  (filter (fun token => negb (String.eqb (token_address token) addr))
                          (this_tokens s)))
    end.

(** [new WebWallet(wallet, encryptedJsonWallet)]: the fields are
    initialised, then [initWallet(wallet)] runs; when it throws, no object
    is built. *)
Definition WebWallet (wallet_ : option Signer) (encryptedJsonWallet : option string)
  : Exn + Session :=
  let fresh := {| this_wallet := None; this_isLocked := true; this_tokens := [];
                  this_provider := None; this_transactionNonce := None;
                  this_network := "";
                  this_encryptedJsonWallet := or_else encryptedJsonWallet "" |} in
  match initWallet wallet_ {| session := fresh; trace := [] |} with
  | (inl e, _) => inl e
  | (inr _, st) => inr (session st)
  end.

End Closures.

(** *** The factories at the end of the wallet file *)

(** The static side of [ethers.Wallet] the factories use: [new Wallet(key)],
    [Wallet.fromMnemonic(phrase)] and [Wallet.fromEncryptedJsonSync(json,
    password)], each of which may throw. *)
Record WalletClass : Type := {
  Wallet_new : string -> Exn + Signer;
  Wallet_fromMnemonic : string -> Exn + Signer;
  Wallet_fromEncryptedJsonSync : string -> string -> Exn + Signer
}.

(** How a factory call ends: an identifier of its body is bound nowhere (a
    ReferenceError), or the body ran and threw or returned. *)
Inductive Built (A : Type) : Type :=
| Unbound (name : string)
| Ran (r : Exn + A).
Arguments Unbound {A} name.
Arguments Ran {A} r.

(** [createWallet = _ => new WebWallet(Wallet.createRandom())], [random]
    being the wallet drawn. *)
Definition createWallet (random : Signer) : Exn + Session :=
  WebWallet (Some random) None.

Definition restoreWalletFromPrivateKey (E : WalletClass) (key : string)
  : Exn + Session :=
  match Wallet_new E key with
  | inl e => inl e
  | inr w => WebWallet (Some w) None
  end.

(** [json => new WebWallet(Wallet.fromEncryptedJsonSync(json, password))]:
    [password] is no parameter and no variable of the file, so it is looked
    up in the global scope; [global_password] is what is bound there, if
    anything.  The arguments are evaluated before the call. *)
Definition restoreWalletFromEncryptedJSON (E : WalletClass)
    (global_password : option string) (json : string) : Built Session :=
  match global_password with
  | None => Unbound "password"
  | Some password =>
      Ran (match Wallet_fromEncryptedJsonSync E json password with
           | inl e => inl e
           | inr w => WebWallet (Some w) None
           end)
  end.

Definition restoreWalletFromMnemonic (E : WalletClass) (phrase : string)
  : Exn + Session :=
  match Wallet_fromMnemonic E phrase with
  | inl e => inl e
  | inr w => WebWallet (Some w) None
  end.

(** ** The session as a state machine

    The frozen object [WebWallet] returns exposes eighteen methods; a caller
    can do nothing to a session but call them. *)

Inductive Op : Type :=
| Connect (network : option string)
| AddToken (symbol addr : string)
| SetNonce
| Lock (password : string)
| Unlock (password : string)
| IsLocked
| GetAddress
| GetProvider
| GetNetwork
| GetMnemonics
| GetPrivateKey
| GetEtherBalance
| GetTokenBalance (tokenAddress : string)
| GetEtherHistory (network addr : option string) (startBlock endBlock : option BlockTag)
| GetTokenHistory (tokenAddress : string)
| SendEther (to amount gas : string) (transactionSpeed : option string)
| SendToken (tokenAddress to amount gas : string) (transactionSpeed : option string)
| RemoveToken (addr : string).

(** The state a call leaves behind, whatever it answered. *)
Definition exec (W : World) (op : Op) (st : State) : State :=
  match op with
  | Connect network => snd (connect W network st)
  | AddToken symbol addr => snd (addToken W symbol addr st)
  | SetNonce => snd (setNonce W st)
  | Lock password => snd (lock W password st)
  | Unlock password => snd (unlock W password st)
  | IsLocked => snd (isLocked st)
  | GetAddress => snd (getAddress W st)
  | GetProvider => snd (getProvider st)
  | GetNetwork => snd (getNetwork st)
  | GetMnemonics => snd (getMnemonics st)
  | GetPrivateKey => snd (getPrivateKey st)
  | GetEtherBalance => snd (getEtherBalance W st)
  | GetTokenBalance a => snd (getTokenBalance W a st)
  | GetEtherHistory n a s e => snd (getEtherHistory W n a s e st)
  | GetTokenHistory a => snd (getTokenHistory W a st)
  | SendEther to amount gas speed => snd (sendEther W to amount gas speed st)
  | SendToken a to amount gas speed => snd (sendToken W a to amount gas speed st)
  | RemoveToken a => snd (removeToken a st)
  end.

Definition run (W : World) (ops : list Op) (st : State) : State :=
  fold_left (fun st op => exec W op st) ops st.

(** A session is built by the constructor, at any moment of the world's
    history, and then driven by calls, each awaited before the next is
    made.  Calls that overlap are [reachable_overlapped] below. *)
Inductive reachable (W : World) : State -> Prop :=
| reachable_new (w : option Signer) (json : option string) (s : Session) (t : Trace) :
    WebWallet w json = inr s ->
    reachable W {| session := s; trace := t |}
| reachable_call (op : Op) (st : State) :
    reachable W st ->
    reachable W (exec W op st).

(** ** Calls that overlap

    An [async] method runs up to its [await] when it is called, and the
    rest of its body when the awaited answer arrives.  A caller that does
    not await one call before making the next lets the halves of different
    calls interleave.  Four methods assign fields after their [await]:
    [lock], [unlock], [setNonce] and [addToken].  What the other [async]
    methods do after theirs shapes their result only, so they are taken
    whole, as the plain functions are. *)

(** The second half of a call, waiting for the answer; the answer is the
    one the collaborator gives to the question as it was asked. *)
Inductive Pending : Type :=
| AwaitingEncrypt (answer : Exn + string)
| AwaitingDecrypt (answer : Exn + Signer)
| AwaitingCount (answer : Exn + Z)
| AwaitingDecimals (symbol addr : string) (c : Contract) (answer : Exn + Z).

Definition asked (c : Call) (st : State) : State :=
  {| session := session st; trace := trace st ++ [c] |}.

(** Lines 90 to 94 of [lock]. *)
Definition lock_clears (s : Session) : Session :=
  set_network "" (set_tokens [] (set_provider None (set_isLocked true (set_wallet None s)))).

(** The first half of a call: the state when the body reaches its [await]
    and what then waits, or the state the body ends in when it returns or
    throws before awaiting anything. *)
Definition begin (W : World) (op : Op) (st : State) : State * option Pending :=
  let s := session st in
  match op with
  | Lock password =>
      if String.eqb (this_encryptedJsonWallet s) ""
      then
        match this_wallet s with
        | Some w =>
            (asked (CallEncrypt w password) st,
             Some (AwaitingEncrypt (encrypt W (trace st) w password)))
        | None => (st, None)
        end
      else ({| session := lock_clears s; trace := trace st |}, None)
  | Unlock password =>
      (asked (CallFromEncryptedJson (this_encryptedJsonWallet s) password) st,
       Some (AwaitingDecrypt
               (fromEncryptedJson W (trace st) (this_encryptedJsonWallet s) password)))
  | SetNonce =>
      match this_wallet s with
      | Some w =>
          (asked (CallGetTransactionCount w) st,
           Some (AwaitingCount (getTransactionCount W (trace st) w)))
      | None => (st, None)
      end
  | AddToken symbol addr =>
      if this_isLocked s then (st, None)
      else
        match find_token addr (this_tokens s) with
        | Some _ => (st, None)
        | None =>
            match createERC20TokenContract (this_wallet s) addr with
            | inl _ => (st, None)
            | inr c =>
                if declares ERC20_ABI "decimals"
                then (asked (CallDecimals c) st,
                      Some (AwaitingDecimals symbol addr c (decimals W (trace st) c)))
                else (st, None)
            end
        end
  | _ => (exec W op st, None)
  end.

(** The second half, run on the fields as they are when the answer
    arrives.  A rejected answer rejects the call and assigns nothing. *)
Definition finish (p : Pending) (s : Session) : Session :=
  match p with
  | AwaitingEncrypt (inr json) => lock_clears (set_encryptedJsonWallet json s)
  | AwaitingEncrypt (inl _) => s
  | AwaitingDecrypt (inr w) => set_isLocked false (set_wallet (Some w) s)
  | AwaitingDecrypt (inl _) => s
  | AwaitingCount (inr n) => set_transactionNonce (Some n) s
  | AwaitingCount (inl _) => s
  | AwaitingDecimals symbol addr c (inr d) =>
      match BigNumber.pow 10 d with
      | inr one =>
          set_tokens (this_tokens s ++
                      [{| token_symbol := symbol; token_address := addr;
                          token_decimals := d; oneToken := one; contract := c |}]) s
      | inl _ => s
      end
  | AwaitingDecimals _ _ _ (inl _) => s
  end.

(** A session in use: its state and the calls that wait, oldest first. *)
Record Running : Type := {
  now : State;
  pending : list Pending
}.

Inductive Move : Type :=
| Start (op : Op)          (* the caller calls a method *)
| Settle (n : nat).        (* the answer the [n]-th waiting call awaits arrives *)

Fixpoint without {A : Type} (n : nat) (l : list A) {struct l} : list A :=
  match l with
  | [] => []
  | x :: l' =>
      match n with
      | O => l'
      | S n' => x :: without n' l'
      end
  end.

Definition move (W : World) (m : Move) (r : Running) : Running :=
  match m with
  | Start op =>
      {| now := fst (begin W op (now r));
         pending := pending r ++ match snd (begin W op (now r)) with
                                 | Some p => [p]
                                 | None => []
                                 end |}
  | Settle n =>
      match nth_error (pending r) n with
      | Some p =>
          {| now := {| session := finish p (session (now r)); trace := trace (now r) |};
             pending := without n (pending r) |}
      | None => r
      end
  end.

Definition play (W : World) (moves : list Move) (r : Running) : Running :=
  fold_left (fun r m => move W m r) moves r.

(** Each call awaited before the next is made. *)
Definition awaited (ops : list Op) : list Move :=
  flat_map (fun op => [Start op; Settle 0]) ops.

(** A session is built by the constructor and then driven by calls whose
    halves interleave in any order. *)
Definition reachable_overlapped (W : World) (r : Running) : Prop :=
  exists w json s t moves,
    WebWallet w json = inr s
    /\ r = play W moves {| now := {| session := s; trace := t |}; pending := [] |}.

(** Which calls wait for the key store's encryption, and which for a
    token's decimals. *)
Definition awaits_encrypt (p : Pending) : bool :=
  match p with
  | AwaitingEncrypt _ => true
  | _ => false
  end.

Definition awaits_decimals (p : Pending) : bool :=
  match p with
  | AwaitingDecimals _ _ _ _ => true
  | _ => false
  end.

(** ** What the ethers key store promises

    [wallet.encrypt(password)] yields a non-empty JSON string;
    [Wallet.fromEncryptedJson] gives the key back under the password the
    JSON was produced with and rejects with "invalid password" under any
    other. *)
Record keystore_sound (W : World) : Prop := {
  decrypt_encrypt :
    forall t t' w password json,
      encrypt W t w password = inr json ->
      exists w', fromEncryptedJson W t' json password = inr w'
                 /\ privateKey w' = privateKey w;
  decrypt_wrong_password :
    forall t t' w password password' json,
      encrypt W t w password = inr json ->
      password' <> password ->
      fromEncryptedJson W t' json password' = inl (Error "invalid password");
  encrypt_nonempty :
    forall t w password json,
      encrypt W t w password = inr json -> json <> ""%string
}.

(** ** A small world to run the model in *)

Module Mock.

Fixpoint unary (n : nat) : string :=
  match n with
  | O => ""
  | S n' => String "1" (unary n')
  end.

(** The mock key store: the password's length in unary, a ["0"], the
    password, the key. *)
Definition sealed (password key : string) : string :=
  (unary (String.length password) ++ String "0" (password ++ key))%string.

Fixpoint strip_prefix (p s : string) : option string :=
  match p, s with
  | EmptyString, _ => Some s
  | String a p', String b s' => if Ascii.eqb a b then strip_prefix p' s' else None
  | String _ _, EmptyString => None
  end.

Definition unseal (json password : string) : Exn + Signer :=
  match strip_prefix (unary (String.length password) ++ String "0" password)%string
                     json with
  | Some key => inr {| privateKey := key; mnemonic := None; signer_provider := None |}
  | None => inl (Error "invalid password")
  end.

Definition is_hex (c : ascii) : bool :=
  let n := nat_of_ascii c in
  ((48 <=? n) && (n <=? 57) || (65 <=? n) && (n <=? 70) || (97 <=? n) && (n <=? 102))%nat.

Fixpoint all_chars (f : ascii -> bool) (s : string) : bool :=
  match s with
  | EmptyString => true
  | String c s' => f c && all_chars f s'
  end.

(** ["0x"] and forty hexadecimal digits (the checksum is not looked at). *)
Definition well_formed_address (a : string) : bool :=
  match a with
  | String "0" (String "x" digits) =>
      (String.length digits =? 40)%nat && all_chars is_hex digits
  | _ => false
  end.

Definition is_digit (c : ascii) : bool :=
  let n := nat_of_ascii c in ((48 <=? n) && (n <=? 57))%nat.

(** Whole decimal numbers only. *)
Definition parse_digits (s : string) : Exn + Z :=
  match s with
  | EmptyString => inl (Error "invalid decimal value")
  | _ =>
      if all_chars is_digit s
      then match NilEmpty.uint_of_string s with
           | Some u => inr (Z.of_uint u)
           | None => inl (Error "invalid decimal value")
           end
      else inl (Error "invalid decimal value")
  end.

Definition parseUnits (s : string) (unit : Z) : Exn + Z :=
  match parse_digits s with
  | inl e => inl e
  | inr n => inr (n * 10 ^ unit)
  end.

Definition receipt (hash from to : string) (value : Z) : TransactionResponse :=
  {| tx_hash := hash; tx_from := from; tx_to := Some to; tx_value := value;
     tx_timestamp := None |}.

Definition gas_prices : Value :=
  Object [("fast", Number 910); ("average", Number 640); ("safeLow", Number 520)].

(** The world: every token reports [token_decimals] decimals and the raw
    balance [raw_balance]; the event log and the explorer answer
    [events] and [history]. *)
Definition world (token_decimals : Z) (raw_balance : N)
                 (events : list TransferEvent)
                 (history : list TransactionResponse) : World :=
  {| computeAddress := fun key => ("0x" ++ key)%string;
     getDefaultProvider := fun network =>
       if String.eqb network "ropsten" then inr None
       else inr (Some {| provider_network := network |});
     EtherscanProvider := fun network => inr {| provider_network := network |};
     utils_getAddress := fun a =>
       if well_formed_address a then inr a else inl (Error "invalid address");
     utils_parseUnits := parseUnits;
     utils_formatEther := fun wei => BigNumber.toString (Z.quot wei (10 ^ 18));
     BigNumber_from := parse_digits;
     encrypt := fun _ w password => inr (sealed password (privateKey w));
     fromEncryptedJson := fun _ json password => unseal json password;
     getTransactionCount := fun _ _ => inr 7;
     getBalance := fun _ _ => inr (3 * 10 ^ 18);
     decimals := fun _ _ => inr token_decimals;
     balanceOf := fun _ _ _ => inr raw_balance;
     queryFilter := fun _ _ _ => inr events;
     getHistory := fun _ _ _ _ _ => inr history;
     sendTransaction := fun _ w request =>
       inr (receipt "0xfeed" ("0x" ++ privateKey w)%string (req_to request)
                    (req_value request));
     transfer := fun _ c to _ _ _ =>
       inr (receipt "0xbeef" ("0x" ++ privateKey (contract_signer c))%string
                    (contract_address c) 0);
     http_get := fun _ _ _ =>
       inr {| data := gas_prices; status := 200; statusText := "OK";
              headers := [("content-type", "application/json")] |} |}.

Definition key : string := "00000000000000000000000000000000000000a1".
Definition me : string := "0x00000000000000000000000000000000000000a1".
Definition friend : string := "0x00000000000000000000000000000000000000b2".
Definition usdc : string := "0xA0b86991c6218b36c1d19D4a2e9Eb0cE3606eB48".

Definition signer : Signer :=
  {| privateKey := key; mnemonic := Some "abandon ability able";
     signer_provider := None |}.

(** [createWallet()], with [signer] as the random wallet drawn. *)
Definition created : State :=
  match WebWallet (Some signer) None with
  | inr s => {| session := s; trace := [] |}
  | inl _ => {| session := {| this_wallet := None; this_isLocked := true;
                              this_tokens := []; this_provider := None;
                              this_transactionNonce := None; this_network := "";
                              this_encryptedJsonWallet := "" |};
                trace := [] |}
  end.

Definition other : string := "0x00000000000000000000000000000000000000c3".

Definition transfers : list TransferEvent :=
  [ {| ev_transactionHash := "0x01"; ev_from := me; ev_to := friend;
       ev_amount := 2500000000000000000 |};
    {| ev_transactionHash := "0x02"; ev_from := friend; ev_to := other;
       ev_amount := 5000000000000000000 |};
    {| ev_transactionHash := "0x03"; ev_from := friend; ev_to := me;
       ev_amount := 1000000000000000000 |};
    {| ev_transactionHash := "0x04"; ev_from := me; ev_to := me;
       ev_amount := 7 |} ].

Definition explorer : list TransactionResponse :=
  [ {| tx_hash := "0x0a"; tx_from := friend; tx_to := Some me;
       tx_value := 10 ^ 18; tx_timestamp := Some 1600000000 |};
    {| tx_hash := "0x0b"; tx_from := me; tx_to := None;
       tx_value := 0; tx_timestamp := Some 1600000100 |} ].

(** The world of the specification's scenario: six decimals, a raw balance
    of 1 500 000. *)
Definition W : World := world 6 1500000 transfers explorer.

(** create wallet, connect("homestead"), setNonce(). *)
Definition ready : State :=
  run W [Connect None; SetNonce] created.

(** The entry line 73 would push for USDC, were [decimals] declared and
    answered with six. *)
Definition usdc_token : Token :=
  {| token_symbol := "USDC"; token_address := usdc; token_decimals := 6;
     oneToken := 10 ^ 6;
     contract := {| contract_address := usdc;
                    contract_signer :=
                      Signer_connect signer {| provider_network := "homestead" |} |} |}.

(** [ready] with that entry in its token list.  No run of the program
    reaches this state, since [addToken] never registers; it is given
    directly, to exercise the methods that read the list. *)
Definition with_usdc : State :=
  {| session := set_tokens [usdc_token] (session ready); trace := trace ready |}.

End Mock.

(** * The vocabulary of the properties *)

(** ** The session's fields *)

(** The registered addresses, in order. *)
Definition addresses (s : Session) : list string :=
  map token_address (this_tokens s).

(** A token entry as lines 70 to 79 of [addToken] build it. *)
Definition token_scaled (token : Token) : Prop :=
  0 <= token_decimals token /\ oneToken token = 10 ^ token_decimals token.

(** The fields after [lock]: everything cleared but the nonce and the
    backup. *)
Definition locked_session (s : Session) (json : string) : Session :=
  {| this_wallet := None; this_isLocked := true; this_tokens := [];
     this_provider := None; this_transactionNonce := this_transactionNonce s;
     this_network := ""; this_encryptedJsonWallet := json |}.

(** Every way one call changes the fields. *)
Inductive session_step (s : Session) : Session -> Prop :=
| step_none :
    session_step s s
| step_connect (w : Signer) (p : option Provider) (network : string) :
    this_wallet s = Some w ->
    session_step s (set_wallet (Some (Signer_rebind w p))
                      (set_network network (set_provider p s)))
| step_removeToken (addr : string) :
    this_isLocked s = false ->
    session_step s (set_tokens
                      (filter (fun token => negb (String.eqb (token_address token) addr))
                              (this_tokens s)) s)
| step_nonce (n : Z) :
    session_step s (set_transactionNonce (Some n) s)
| step_lock (json : string) :
    (this_encryptedJsonWallet s <> ""%string -> json = this_encryptedJsonWallet s) ->
    session_step s (locked_session s json)
| step_unlock (w : Signer) :
    session_step s (set_isLocked false (set_wallet (Some w) s)).

Create HintDb wallet.
#[local] Hint Constructors session_step : wallet.

(** What holds of the fields in every reachable state (lemma
    [reachable_consistent]). *)
Record consistent (s : Session) : Prop := {
  tokens_unique : NoDup (addresses s);
  tokens_scaled : Forall token_scaled (this_tokens s);
  locked_no_wallet : this_isLocked s = true -> this_wallet s = None;
  unlocked_wallet : this_isLocked s = false -> this_wallet s <> None;
  locked_cleared :
    this_isLocked s = true ->
    this_tokens s = [] /\ this_provider s = None /\ this_network s = ""%string
}.

(** Locked, as [lock] leaves the session: the flag set, the signing handle
    gone. *)
Definition locked (s : Session) : Prop :=
  this_isLocked s = true /\ this_wallet s = None.

(** The nonce [this.transactionNonce++] hands out. *)
Definition current_nonce (s : Session) : Z :=
  match this_transactionNonce s with
  | Some n => n
  | None => 0
  end.

(** The correct passphrase of an unlocked session: either no backup exists
    yet, so the next [lock] produces it under this passphrase, or the backup
    the session holds was produced under it, from the session's key. *)
Definition correct_passphrase (W : World) (s : Session) (w : Signer) (password : string)
  : Prop :=
  this_encryptedJsonWallet s = ""%string
  \/ exists t w0,
       encrypt W t w0 password = inr (this_encryptedJsonWallet s)
       /\ privateKey w0 = privateKey w.

(** ** The response envelope *)

(** [obj.name] for a plain object. *)
Definition property (name : string) (v : Value) : option Value :=
  match v with
  | Object props =>
      match find (fun p => String.eqb (fst p) name) props with
      | Some p => Some (snd p)
      | None => None
      end
  | _ => None
  end.

(** ** Token history, in the specification's words *)

(** The specification's words: a transfer involves the wallet when its
    sender or its recipient is the wallet's address. *)
Definition spec_involves (me : string) (ev : TransferEvent) : bool :=
  String.eqb (ev_from ev) me || String.eqb (ev_to ev) me.

(** The specification's words: SELF when sender and recipient are both the
    wallet, OUT when only the sender is, IN otherwise. *)
Definition spec_status (me : string) (ev : TransferEvent) : string :=
  if String.eqb (ev_from ev) me
  then (if String.eqb (ev_to ev) me then "SELF" else "OUT")
  else "IN".

(** The specification's words: the amount is the transferred value divided
    by 10^18, whatever the token's decimals, written in decimal. *)
Definition spec_amount (ev : TransferEvent) : string :=
  BigNumber.toString (Z.of_N (ev_amount ev) / 10 ^ 18).

Definition spec_entry (me : string) (ev : TransferEvent) : TokenHistoryEntry :=
  {| th_transactionHash := ev_transactionHash ev;
     th_status := spec_status me ev;
     th_from := ev_from ev;
     th_to := ev_to ev;
     th_amount := spec_amount ev |}.

(** ** Kinds of calls *)

(** The methods that only read: the getters and the four queries. *)
Definition reads_only (op : Op) : bool :=
  match op with
  | IsLocked | GetAddress | GetProvider | GetNetwork | GetMnemonics | GetPrivateKey
  | GetEtherBalance | GetTokenBalance _ | GetEtherHistory _ _ _ _
  | GetTokenHistory _ => true
  | _ => false
  end.

(** The methods that are plain functions, not [async] ones. *)
Definition synchronous (op : Op) : bool :=
  match op with
  | Connect _ | IsLocked | GetAddress | GetProvider | GetNetwork | GetMnemonics
  | GetPrivateKey | RemoveToken _ => true
  | _ => false
  end.

(** The two sends. *)
Definition sends (op : Op) : bool :=
  match op with
  | SendEther _ _ _ _ | SendToken _ _ _ _ _ => true
  | _ => false
  end.

(** ** Payments *)

(** The arguments of one [sendEther] call. *)
Record Payment : Type := {
  pay_to : string;
  pay_amount : string;
  pay_gas : string
}.

(** A payment [sendEther] takes as far as the provider: the address is
    accepted and both numbers parse. *)
Definition payable (W : World) (p : Payment) : Prop :=
  (exists a, utils_getAddress W (pay_to p) = inr a)
  /\ (exists value, utils_parseUnits W (pay_amount p) 18 = inr value)
  /\ (exists gasPrice, utils_parseUnits W (pay_gas p) 9 = inr gasPrice).

Definition parsed (r : Exn + Z) : Z :=
  match r with
  | inr n => n
  | inl _ => 0
  end.

(** The request a payable payment becomes under a given nonce. *)
Definition request_of (W : World) (nonce : Z) (p : Payment) : TransactionRequest :=
  {| req_nonce := nonce; req_to := pay_to p;
     req_value := parsed (utils_parseUnits W (pay_amount p) 18);
     req_gasPrice := parsed (utils_parseUnits W (pay_gas p) 9) |}.

Fixpoint requests_from (W : World) (nonce : Z) (l : list Payment)
  : list TransactionRequest :=
  match l with
  | [] => []
  | p :: l' => request_of W nonce p :: requests_from W (nonce + 1) l'
  end.

(** [sendEther] called for each payment in turn, each call awaited. *)
Fixpoint pay_all (W : World) (l : list Payment) (st : State) : State :=
  match l with
  | [] => st
  | p :: l' =>
      pay_all W l' (snd (async (sendEther W (pay_to p) (pay_amount p) (pay_gas p) None) st))
  end.

(** ** Sessions the factories build *)

(** A session as one of the four factories returns it. *)
Definition factory_built (E : WalletClass) (s : Session) : Prop :=
  (exists random, createWallet random = inr s)
  \/ (exists key, restoreWalletFromPrivateKey E key = inr s)
  \/ (exists phrase, restoreWalletFromMnemonic E phrase = inr s)
  \/ (exists password json,
        restoreWalletFromEncryptedJSON E (Some password) json = Ran (inr s)).

(** ** The key store hands back unconnected wallets *)

(** A wallet decrypted from a JSON backup has no provider. *)
Definition decrypts_unconnected (W : World) : Prop :=
  forall t json password w,
    fromEncryptedJson W t json password = inr w -> signer_provider w = None.

(** ** Tactics *)

(** Unfolding a method body down to its case analyses. *)
Ltac unfold_monad :=
  unfold async, sync, bind, ret, throw, this, assign, lift, await in *.

Ltac run_body :=
  unfold_monad; cbn [fst snd session trace] in *.

(** Case analysis on whatever a method body branches on. *)
Ltac branch :=
  match goal with
  | |- context [match ?x with _ => _ end] =>
      lazymatch x with
      | context [match _ with _ => _ end] => fail
      | _ => let E := fresh "E" in destruct x eqn:E
      end
  | |- context [if ?x then _ else _] =>
      lazymatch x with
      | context [if _ then _ else _] => fail
      | _ => let E := fresh "E" in destruct x eqn:E
      end
  end.

Ltac branches := repeat (branch; cbn [fst snd session trace] in *).

(** [ERC20_ABI] has no fragment for [decimals]. *)
Ltac undeclared :=
  unfold contract_method in *;
  try change (declares ERC20_ABI "decimals") with false in *;
  cbv iota in *.

(** Every method body, down to the monad. *)
Ltac unfold_methods :=
  unfold connect, addToken, setNonce, lock, unlock, isLocked, getAddress, getProvider,
    getNetwork, getMnemonics, getPrivateKey, getEtherBalance, getTokenBalance,
    getEtherHistory, getTokenHistory, sendEther, sendToken, removeToken,
    post_increment_nonce, initWallet, the_wallet;
  undeclared.

(** * Properties *)

(** ** The gas-price client *)

Lemma response_object_data (r : AxiosResponse) :
  property "data" (response_object r) = Some (data r).
Proof. reflexivity. Qed.

(** C9, as the specification words it, fails: in the mock world the oracle
    answers with the body [Mock.gas_prices], and the promise of
    [getGasPrice] resolves to the response envelope, which is not that body
    (the body is its [data] property). *)
Lemma getGasPrice_resolves_to_envelope_not_body :
  let W := Mock.world 6 0 [] [] in
  let body := Mock.gas_prices in
  (exists r, http_get W [] "https://ethgasstation.info/json/ethgasAPI.json" 10000 = inr r
             /\ data r = body)
  /\ fst (Api.getGasPrice W []) <> Resolved body
  /\ exists envelope,
       fst (Api.getGasPrice W []) = Resolved envelope
       /\ property "data" envelope = Some body
       /\ property "status" envelope = Some (Number 200).
Proof.
  cbv zeta. split; [| split].
  - eexists. split; reflexivity.
  - cbn. intros H. inversion H.
  - eexists. repeat split.
Qed.

(** C9 (amended): every call of [getGasPrice], whatever was asked before and
    whatever the answer, issues exactly one GET request for the fixed
    endpoint with a timeout of 10000 ms; its promise rejects with the
    transport's error or resolves to the response envelope, unmodified,
    whose [data] property is the parsed body.  A second call issues a second
    request: nothing is cached, nothing is retried. *)
Theorem getGasPrice_one_request (W : World) (t : Trace) :
  let request := CallHttpGet "https://ethgasstation.info/json/ethgasAPI.json" 10000 in
  snd (Api.getGasPrice W t) = t ++ [request]
  /\ fst (Api.getGasPrice W t) =
       match http_get W t "https://ethgasstation.info/json/ethgasAPI.json" 10000 with
       | inl e => Rejected e
       | inr response => Resolved (response_object response)
       end
  /\ (forall response, property "data" (response_object response) = Some (data response))
  /\ snd (Api.getGasPrice W (snd (Api.getGasPrice W t))) = (t ++ [request]) ++ [request].
Proof.
  cbv zeta. split; [reflexivity |]. split; [reflexivity |].
  split; [exact response_object_data | reflexivity].
Qed.

(** ** What a call can do to the fields *)

Lemma pow_scaled (d one : Z) :
  BigNumber.pow 10 d = inr one -> 0 <= d /\ one = 10 ^ d.
Proof.
  unfold BigNumber.pow. destruct (Z.ltb_spec d 0) as [Hneg | Hpos];
    intros Hpow; inversion Hpow. lia.
Qed.

Lemma exec_session_step (W : World) (op : Op) (st : State) :
  session_step (session st) (session (exec W op st)).
Proof.
  destruct st as [s t].
  destruct op; cbn [exec];
    unfold connect, addToken, setNonce, lock, unlock, isLocked, getAddress, getProvider,
      getNetwork, getMnemonics, getPrivateKey, getEtherBalance, getTokenBalance,
      getEtherHistory, getTokenHistory, sendEther, sendToken, removeToken,
      post_increment_nonce, initWallet, the_wallet, contract_method;
    undeclared; run_body; branches; auto with wallet.
  - (* lock, encrypting first *)
    match goal with
    | H : String.eqb _ _ = true |- session_step _ (_ (_ (_ (_ (_ (_ ?json _)))))) =>
        apply String.eqb_eq in H; apply (step_lock s json); intros; congruence
    end.
  - (* lock, keeping the backup *)
    apply (step_lock s (this_encryptedJsonWallet s)). reflexivity.
Qed.

(** ** Invariants of the session *)

Lemma find_token_none (a : string) (tokens : list Token) :
  find_token a tokens = None <-> ~ In a (map token_address tokens).
Proof.
  unfold find_token. induction tokens as [| token tokens IH]; cbn.
  - tauto.
  - destruct (String.eqb_spec (token_address token) a) as [Heq | Hne].
    + split; [discriminate | intros H; exfalso; apply H; left; exact Heq].
    + rewrite IH. tauto.
Qed.

Lemma find_token_registered (a : string) (tokens : list Token) :
  In a (map token_address tokens) -> exists token, find_token a tokens = Some token.
Proof.
  intros Hin. destruct (find_token a tokens) as [token |] eqn:E.
  - eauto.
  - apply find_token_none in E. contradiction.
Qed.

Lemma NoDup_map_filter {A B} (f : A -> B) (keep : A -> bool) (l : list A) :
  NoDup (map f l) -> NoDup (map f (filter keep l)).
Proof.
  induction l as [| x l IH]; cbn; intros H.
  - constructor.
  - inversion H as [| y ys Hnotin Hrest]; subst.
    destruct (keep x); cbn; auto.
    constructor; auto.
    intros Hin. apply Hnotin. apply in_map_iff in Hin.
    destruct Hin as [z [Hz Hin]]. apply filter_In in Hin.
    apply in_map_iff. exists z. tauto.
Qed.

Lemma session_step_consistent (s s' : Session) :
  session_step s s' -> consistent s -> consistent s'.
Proof.
  intros Hstep [Huniq Hscaled Hlocked Hunlocked Hcleared].
  destruct Hstep as [| w p network Hw | addr Hopen | n | json Hjson | w].
  - constructor; assumption.
  - assert (Hopen : this_isLocked s = false).
    { destruct (this_isLocked s) eqn:E; [| reflexivity].
      rewrite Hlocked in Hw by reflexivity. discriminate. }
    constructor; cbn; try assumption; try congruence.
  - constructor; cbn; try assumption; try congruence.
    + unfold addresses. cbn. apply NoDup_map_filter. exact Huniq.
    + apply (incl_Forall (l1 := this_tokens s)); [apply incl_filter | assumption].
  - constructor; assumption.
  - constructor; cbn; try congruence.
    + constructor.
    + constructor.
    + auto.
  - constructor; cbn; try assumption; try congruence.
Qed.

Lemma WebWallet_consistent (w : option Signer) (json : option string) (s : Session) :
  WebWallet w json = inr s -> consistent s.
Proof.
  unfold WebWallet, initWallet. destruct w as [w |]; run_body; intros H; inversion H.
  constructor; cbn; try congruence; constructor.
Qed.

Lemma reachable_consistent (W : World) (st : State) :
  reachable W st -> consistent (session st).
Proof.
  induction 1 as [w json s t Hnew | op st Hreach IH].
  - cbn. eapply WebWallet_consistent; eassumption.
  - eapply session_step_consistent; [apply exec_session_step | exact IH].
Qed.

Lemma reachable_run (W : World) (ops : list Op) (st : State) :
  reachable W st -> reachable W (run W ops st).
Proof.
  revert st. induction ops as [| op ops IH]; cbn; intros st H.
  - exact H.
  - apply IH. apply reachable_call. exact H.
Qed.

Lemma mock_created_reachable (W : World) : reachable W Mock.created.
Proof.
  apply (reachable_new W (Some Mock.signer) None). reflexivity.
Qed.

Lemma mock_ready_reachable : reachable Mock.W Mock.ready.
Proof. apply reachable_run, mock_created_reachable. Qed.

(** Locking forgets the token list: the locked state obtained from
    [Mock.with_usdc] is the one the program reaches. *)
Lemma mock_locked_reached :
  exec Mock.W (Lock "hunter2") Mock.with_usdc
  = run Mock.W [Connect None; AddToken "USDC" Mock.usdc; SetNonce; Lock "hunter2"]
        Mock.created.
Proof. reflexivity. Qed.

(** ** Calls that overlap *)

Lemma decimals_undeclared : declares ERC20_ABI "decimals" = false.
Proof. reflexivity. Qed.

(** The two halves of a call, run back to back, are the call. *)
Lemma begin_finish (W : World) (op : Op) (st : State) :
  exec W op st =
  match snd (begin W op st) with
  | None => fst (begin W op st)
  | Some p => {| session := finish p (session (fst (begin W op st)));
                 trace := trace (fst (begin W op st)) |}
  end.
Proof.
  destruct st as [s t]. destruct op; try reflexivity; cbn [exec begin session trace];
    unfold addToken, setNonce, lock, unlock, initWallet, the_wallet, asked, finish,
      lock_clears;
    undeclared; run_body; branches; reflexivity.
Qed.

Lemma play_step (W : World) (m : Move) (moves : list Move) (r : Running) :
  play W (m :: moves) r = play W moves (move W m r).
Proof. reflexivity. Qed.

Lemma play_app (W : World) (moves moves' : list Move) (r : Running) :
  play W (moves ++ moves') r = play W moves' (play W moves r).
Proof. unfold play. apply fold_left_app. Qed.

Lemma play_invariant (W : World) (P : Running -> Prop) :
  (forall m r, P r -> P (move W m r)) ->
  forall moves r, P r -> P (play W moves r).
Proof.
  intros Hmove moves. induction moves as [| m moves IH]; intros r Hr.
  - exact Hr.
  - rewrite play_step. apply IH, Hmove, Hr.
Qed.

(** A call that is awaited before anything else happens is the call taken
    whole. *)
Lemma move_awaited (W : World) (op : Op) (st : State) :
  play W [Start op; Settle 0] {| now := st; pending := [] |}
  = {| now := exec W op st; pending := [] |}.
Proof.
  rewrite (begin_finish W op st). cbn [play fold_left move now pending app].
  destruct (snd (begin W op st)) as [p |]; cbn [nth_error without now session trace].
  - reflexivity.
  - destruct (fst (begin W op st)); reflexivity.
Qed.

Lemma play_awaited (W : World) (ops : list Op) (st : State) :
  play W (awaited ops) {| now := st; pending := [] |}
  = {| now := run W ops st; pending := [] |}.
Proof.
  revert st. induction ops as [| op ops IH]; intros st.
  - reflexivity.
  - change (awaited (op :: ops)) with ([Start op; Settle 0] ++ awaited ops).
    rewrite play_app, move_awaited. apply IH.
Qed.

(** Calls awaited one at a time are one way of overlapping. *)
Lemma reachable_reachable_overlapped (W : World) (st : State) :
  reachable W st -> reachable_overlapped W {| now := st; pending := [] |}.
Proof.
  induction 1 as [w json s t Hnew | op st Hreach IH].
  - exists w, json, s, t, []. split; [exact Hnew | reflexivity].
  - destruct IH as (w & json & s & t & moves & Hnew & Hplay).
    exists w, json, s, t, (moves ++ [Start op; Settle 0]). split; [exact Hnew |].
    rewrite play_app, <- Hplay, move_awaited. reflexivity.
Qed.

Lemma without_Forall {A : Type} (P : A -> Prop) (n : nat) (l : list A) :
  Forall P l -> Forall P (without n l).
Proof.
  revert n. induction l as [| x l IH]; intros n H; cbn.
  - constructor.
  - inversion H as [| y ys Hx Hl]; subst. destruct n; [exact Hl |].
    constructor; [exact Hx | apply IH, Hl].
Qed.

Lemma nth_error_Forall {A : Type} (P : A -> Prop) (n : nat) (l : list A) (x : A) :
  Forall P l -> nth_error l n = Some x -> P x.
Proof.
  intros H Hn. apply nth_error_In in Hn. rewrite Forall_forall in H. auto.
Qed.

(** ** Token registration *)

Lemma session_step_no_tokens (s s' : Session) :
  session_step s s' -> this_tokens s = [] -> this_tokens s' = [].
Proof.
  intros Hstep Hnil. destruct Hstep; cbn; try assumption; try reflexivity.
  rewrite Hnil. reflexivity.
Qed.

(** No half of any call puts an entry in an empty token list, and none
    comes to wait for a token's decimals. *)
Lemma move_registers_nothing (W : World) (m : Move) (r : Running) :
  this_tokens (session (now r)) = []
  /\ Forall (fun p => awaits_decimals p = false) (pending r) ->
  this_tokens (session (now (move W m r))) = []
  /\ Forall (fun p => awaits_decimals p = false) (pending (move W m r)).
Proof.
  intros [Hnil Hwait]. destruct r as [[s t] waiting]; cbn [now pending session] in *.
  destruct m as [op | n].
  - assert (Hwhole : this_tokens (session (exec W op {| session := s; trace := t |})) = []).
    { apply (session_step_no_tokens s);
        [exact (exec_session_step W op {| session := s; trace := t |}) | exact Hnil]. }
    destruct op; cbn [move begin now pending session trace fst snd];
      try (rewrite app_nil_r; split; [exact Hwhole | exact Hwait]);
      undeclared; branches; cbn [session asked];
      (split;
       [first [exact Hnil | reflexivity]
       | first [rewrite app_nil_r; exact Hwait
               | apply Forall_app; split; [exact Hwait | repeat constructor]]]).
  - cbn [move now pending]. destruct (nth_error waiting n) as [p |] eqn:Hp;
      cbn [now pending session]; [| split; assumption].
    split; [| apply without_Forall, Hwait].
    pose proof (nth_error_Forall _ _ _ _ Hwait Hp) as Hnot.
    destruct p as [[e | json] | [e | w] | [e | k] | symbol addr c answer];
      cbn in Hnot |- *; try assumption; try reflexivity; discriminate.
Qed.

Lemma reachable_overlapped_no_tokens (W : World) (r : Running) :
  reachable_overlapped W r ->
  this_tokens (session (now r)) = []
  /\ Forall (fun p => awaits_decimals p = false) (pending r).
Proof.
  intros (w & json & s & t & moves & Hnew & ->).
  apply play_invariant; [apply move_registers_nothing |].
  cbn. split; [| constructor].
  unfold WebWallet, initWallet in Hnew. destruct w as [w |]; run_body; inversion Hnew.
  reflexivity.
Qed.

(** C4: in every state a session reaches, also through calls that overlap,
    no two entries of [this.tokens] carry the same contract address; and
    [addToken] with an address that is registered changes nothing: the
    fields, so the token list and its length, are the same, and so is the
    trace, so [contract.decimals()] was not asked again.  On an unlocked
    session the call resolves. *)
Theorem registered_tokens_unique (W : World) :
  (forall r, reachable_overlapped W r -> NoDup (addresses (session (now r))))
  /\ (forall st symbol A,
        In A (addresses (session st)) ->
        snd (async (addToken W symbol A) st) = st
        /\ (this_isLocked (session st) = false ->
            async (addToken W symbol A) st = (Resolved tt, st))).
Proof.
  split.
  - intros r Hreach. apply reachable_overlapped_no_tokens in Hreach.
    destruct Hreach as [Hnil _]. unfold addresses. rewrite Hnil. constructor.
  - intros st symbol A Hin.
    destruct (find_token_registered _ _ Hin) as [token Hfound].
    unfold addToken. run_body. rewrite Hfound.
    destruct (this_isLocked (session st)); split; try reflexivity; discriminate.
Qed.

Lemma registered_tokens_unique_witness :
  NoDup (addresses (session (now
           (play Mock.W [Start (Connect None); Start (AddToken "USDC" Mock.usdc);
                         Start (Lock "hunter2"); Start (AddToken "USDC" Mock.usdc);
                         Settle 0; Start (Unlock "hunter2");
                         Start (AddToken "USDC" Mock.usdc); Settle 0]
                 {| now := Mock.created; pending := [] |}))))
  /\ In Mock.usdc (addresses (session Mock.with_usdc))
  /\ async (addToken Mock.W "USD Coin" Mock.usdc) Mock.with_usdc
     = (Resolved tt, Mock.with_usdc).
Proof.
  destruct (registered_tokens_unique Mock.W) as [Huniq Hnoop].
  assert (Hin : In Mock.usdc (addresses (session Mock.with_usdc))).
  { vm_compute. left. reflexivity. }
  split; [| split; [exact Hin |]].
  - apply Huniq. exists (Some Mock.signer), None, (session Mock.created), [].
    eexists. split; reflexivity.
  - apply (Hnoop Mock.with_usdc "USD Coin" Mock.usdc Hin). reflexivity.
Defined.

(** ** The encrypted backup *)

Lemma session_step_keeps_backup (s s' : Session) :
  session_step s s' ->
  this_encryptedJsonWallet s <> ""%string ->
  this_encryptedJsonWallet s' = this_encryptedJsonWallet s.
Proof.
  intros Hstep Hbackup. destruct Hstep; cbn; auto.
Qed.

Lemma run_keeps_backup (W : World) (ops : list Op) (st : State) :
  this_encryptedJsonWallet (session st) <> ""%string ->
  this_encryptedJsonWallet (session (run W ops st))
  = this_encryptedJsonWallet (session st).
Proof.
  revert st. induction ops as [| op ops IH]; intros st Hbackup.
  - reflexivity.
  - change (run W (op :: ops) st) with (run W ops (exec W op st)).
    pose proof (session_step_keeps_backup _ _ (exec_session_step W op st) Hbackup) as Hop.
    rewrite IH; rewrite Hop; auto.
Qed.

(** Calls awaited one at a time: once the backup string is non-empty, no
    sequence of such calls changes it, whatever the calls and whatever they
    answer; and an [unlock] after any such sequence hands exactly that
    string to the key store. *)
Theorem backup_never_modified (W : World) (st : State) (ops : list Op) :
  this_encryptedJsonWallet (session st) <> ""%string ->
  this_encryptedJsonWallet (session (run W ops st))
  = this_encryptedJsonWallet (session st)
  /\ forall password,
       trace (exec W (Unlock password) (run W ops st))
       = trace (run W ops st)
         ++ [CallFromEncryptedJson (this_encryptedJsonWallet (session st)) password].
Proof.
  intros Hbackup. pose proof (run_keeps_backup W ops st Hbackup) as Hkept.
  split; [exact Hkept |].
  intros password. cbn [exec]. unfold unlock, initWallet. run_body.
  rewrite Hkept. branches; reflexivity.
Qed.

Lemma backup_never_modified_witness :
  let st := exec Mock.W (Lock "hunter2") Mock.with_usdc in
  let ops := [Unlock "hunter2"; Connect (Some "ropsten"); AddToken "USDC" Mock.usdc;
              Lock "another"; Unlock "wrong"; Unlock "hunter2"; Lock "third"] in
  this_encryptedJsonWallet (session st) = Mock.sealed "hunter2" Mock.key
  /\ this_encryptedJsonWallet (session (run Mock.W ops st))
     = Mock.sealed "hunter2" Mock.key
  /\ trace (exec Mock.W (Unlock "hunter2") (run Mock.W ops st))
     = trace (run Mock.W ops st)
       ++ [CallFromEncryptedJson (Mock.sealed "hunter2" Mock.key) "hunter2"].
Proof.
  cbv zeta.
  assert (Hst : this_encryptedJsonWallet (session (exec Mock.W (Lock "hunter2") Mock.with_usdc))
                = Mock.sealed "hunter2" Mock.key) by (vm_compute; reflexivity).
  assert (Hne : this_encryptedJsonWallet (session (exec Mock.W (Lock "hunter2") Mock.with_usdc))
                <> ""%string) by (rewrite Hst; vm_compute; discriminate).
  destruct (backup_never_modified Mock.W _
              [Unlock "hunter2"; Connect (Some "ropsten"); AddToken "USDC" Mock.usdc;
               Lock "another"; Unlock "wrong"; Unlock "hunter2"; Lock "third"] Hne)
    as [Hkept Hunlock].
  split; [exact Hst |]. split.
  - rewrite Hkept. exact Hst.
  - rewrite (Hunlock "hunter2"), Hst. reflexivity.
Defined.

(** C10, as worded, fails when two [lock] calls overlap.  Both are started
    on a fresh session ([lock('a'); lock('b')], neither awaited): each finds
    the backup empty on line 87 and asks the key store.  When the first
    answer arrives the backup is the wallet sealed under "a", a non-empty
    string; when the second arrives line 88 replaces it by the wallet sealed
    under "b".  [unlock('a')] is rejected from then on. *)
Lemma overlapped_locks_replace_the_backup :
  this_encryptedJsonWallet
    (session (now (play Mock.W [Start (Lock "a"); Start (Lock "b"); Settle 0]
                        {| now := Mock.created; pending := [] |})))
  = Mock.sealed "a" Mock.key
  /\ Mock.sealed "a" Mock.key <> ""%string
  /\ this_encryptedJsonWallet
       (session (now (play Mock.W [Start (Lock "a"); Start (Lock "b"); Settle 0; Settle 0]
                           {| now := Mock.created; pending := [] |})))
     = Mock.sealed "b" Mock.key
  /\ Mock.sealed "b" Mock.key <> Mock.sealed "a" Mock.key
  /\ fst (async (unlock Mock.W "a")
            (now (play Mock.W [Start (Lock "a"); Start (Lock "b"); Settle 0; Settle 0]
                       {| now := Mock.created; pending := [] |})))
     = Rejected (Error "invalid password")
  /\ fst (async (unlock Mock.W "b")
            (now (play Mock.W [Start (Lock "a"); Start (Lock "b"); Settle 0; Settle 0]
                       {| now := Mock.created; pending := [] |})))
     = Resolved tt.
Proof.
  repeat split; try reflexivity; vm_compute; discriminate.
Qed.

(** While the backup is non-empty and no [lock] waits for the key store,
    no half of any call changes the backup, and no [lock] comes to wait. *)
Lemma move_keeps_backup (W : World) (backup : string) (m : Move) (r : Running) :
  backup <> ""%string ->
  this_encryptedJsonWallet (session (now r)) = backup
  /\ Forall (fun p => awaits_encrypt p = false) (pending r) ->
  this_encryptedJsonWallet (session (now (move W m r))) = backup
  /\ Forall (fun p => awaits_encrypt p = false) (pending (move W m r)).
Proof.
  intros Hbackup [Hkept Hwait]. destruct r as [[s t] waiting];
    cbn [now pending session] in *.
  assert (Hkeeps : String.eqb (this_encryptedJsonWallet s) "" = false).
  { apply String.eqb_neq. congruence. }
  destruct m as [op | n].
  - assert (Hwhole : this_encryptedJsonWallet
                       (session (exec W op {| session := s; trace := t |})) = backup).
    { rewrite <- Hkept. apply session_step_keeps_backup;
        [exact (exec_session_step W op {| session := s; trace := t |}) | congruence]. }
    destruct op; cbn [move begin now pending session trace fst snd];
      try (rewrite app_nil_r; split; [exact Hwhole | exact Hwait]);
      undeclared; try rewrite Hkeeps; cbn [fst snd session trace]; branches;
      cbn [session asked];
      (split;
       [first [exact Hkept | reflexivity]
       | first [rewrite app_nil_r; exact Hwait
               | apply Forall_app; split; [exact Hwait | repeat constructor]]]).
  - cbn [move now pending]. destruct (nth_error waiting n) as [p |] eqn:Hp;
      cbn [now pending session]; [| split; assumption].
    split; [| apply without_Forall, Hwait].
    pose proof (nth_error_Forall _ _ _ _ Hwait Hp) as Hnot.
    destruct p as [[e | json] | [e | w] | [e | k] | symbol addr c [e | d]];
      cbn in Hnot |- *; try assumption; try discriminate.
    destruct (BigNumber.pow 10 d); assumption.
Qed.

(** C10, amended: once the backup string is non-empty and no [lock] call
    is still waiting for the key store's encryption, nothing modifies the
    backup, however the calls that follow overlap and whatever they are
    answered.  Any later [lock] keeps the backup without asking the key
    store, and any later [unlock] hands exactly that string to the key
    store. *)
Theorem backup_kept_once_no_lock_waits (W : World) (r : Running) (moves : list Move) :
  this_encryptedJsonWallet (session (now r)) <> ""%string ->
  Forall (fun p => awaits_encrypt p = false) (pending r) ->
  let backup := this_encryptedJsonWallet (session (now r)) in
  let r' := play W moves r in
  this_encryptedJsonWallet (session (now r')) = backup
  /\ (forall password,
        async (lock W password) (now r')
        = (Resolved backup,
           {| session := lock_clears (session (now r')); trace := trace (now r') |})
        /\ snd (begin W (Lock password) (now r')) = None
        /\ this_encryptedJsonWallet (lock_clears (session (now r'))) = backup)
  /\ (forall password,
        trace (exec W (Unlock password) (now r'))
        = trace (now r') ++ [CallFromEncryptedJson backup password]
        /\ this_encryptedJsonWallet (session (exec W (Unlock password) (now r'))) = backup
        /\ fst (begin W (Unlock password) (now r'))
           = asked (CallFromEncryptedJson backup password) (now r')
        /\ forall answer,
             this_encryptedJsonWallet (finish (AwaitingDecrypt answer) (session (now r')))
             = backup).
Proof.
  intros Hbackup Hwait backup r'.
  assert (Hinv : this_encryptedJsonWallet (session (now r')) = backup
                 /\ Forall (fun p => awaits_encrypt p = false) (pending r')).
  { unfold r'. apply play_invariant with
      (P := fun x => this_encryptedJsonWallet (session (now x)) = backup
                     /\ Forall (fun p => awaits_encrypt p = false) (pending x)).
    - intros m x. apply move_keeps_backup. exact Hbackup.
    - split; [reflexivity | exact Hwait]. }
  destruct Hinv as [Hkept _]. split; [exact Hkept |].
  destruct (now r') as [s t]. cbn [session trace] in *.
  assert (Hfull : String.eqb (this_encryptedJsonWallet s) "" = false).
  { apply String.eqb_neq. rewrite Hkept. exact Hbackup. }
  split.
  - intros password. split; [| split].
    + unfold lock. run_body. rewrite Hfull. cbn. rewrite Hkept. reflexivity.
    + cbn [begin session]. rewrite Hfull. reflexivity.
    + exact Hkept.
  - intros password. split; [| split; [| split]].
    + cbn [exec]. unfold unlock, initWallet. run_body. rewrite Hkept.
      branches; reflexivity.
    + cbn [exec]. unfold unlock, initWallet. run_body.
      branches; exact Hkept.
    + cbn [begin fst session]. rewrite Hkept. reflexivity.
    + intros [e | w]; exact Hkept.
Qed.

Lemma backup_kept_once_no_lock_waits_witness :
  this_encryptedJsonWallet
    (session (now (play Mock.W
                     [Start (Unlock "hunter2"); Start (Lock "another"); Settle 0;
                      Start (Connect None); Start SetNonce; Start (Lock "third");
                      Start (Unlock "wrong"); Settle 1; Settle 0; Start (Lock "fourth")]
                     {| now := exec Mock.W (Lock "hunter2") Mock.ready; pending := [] |})))
  = Mock.sealed "hunter2" Mock.key.
Proof.
  destruct (backup_kept_once_no_lock_waits Mock.W
              {| now := exec Mock.W (Lock "hunter2") Mock.ready; pending := [] |}
              [Start (Unlock "hunter2"); Start (Lock "another"); Settle 0;
               Start (Connect None); Start SetNonce; Start (Lock "third");
               Start (Unlock "wrong"); Settle 1; Settle 0; Start (Lock "fourth")])
    as [Hkept _].
  - vm_compute. discriminate.
  - constructor.
  - rewrite Hkept. reflexivity.
Defined.

(** *** The mock key store keeps the key store's promises *)

Lemma string_app_assoc (a b c : string) :
  ((a ++ b) ++ c = a ++ (b ++ c))%string.
Proof.
  induction a as [| x a IH]; cbn; [reflexivity | rewrite IH; reflexivity].
Qed.

Lemma strip_prefix_common (a b c : string) :
  Mock.strip_prefix (a ++ b) (a ++ c) = Mock.strip_prefix b c.
Proof.
  induction a as [| x a IH]; cbn; [reflexivity |].
  rewrite Ascii.eqb_refl. exact IH.
Qed.

Lemma strip_prefix_app (p s : string) :
  Mock.strip_prefix p (p ++ s) = Some s.
Proof.
  induction p as [| x p IH]; cbn; [reflexivity |].
  rewrite Ascii.eqb_refl. exact IH.
Qed.

Lemma strip_prefix_inv (p s r : string) :
  Mock.strip_prefix p s = Some r -> s = (p ++ r)%string.
Proof.
  revert s. induction p as [| x p IH]; intros s; cbn.
  - intros H. inversion H. reflexivity.
  - destruct s as [| y s]; [discriminate |].
    destruct (Ascii.eqb_spec x y) as [-> | Hne]; [| discriminate].
    intros H. rewrite (IH _ H). reflexivity.
Qed.

Lemma unary_split (n m : nat) (a b : string) :
  (Mock.unary n ++ String "0" a = Mock.unary m ++ String "0" b)%string ->
  n = m /\ a = b.
Proof.
  revert m. induction n as [| n IH]; intros [| m]; cbn; intros H.
  - inversion H. auto.
  - inversion H.
  - inversion H.
  - inversion H as [H']. destruct (IH _ H'). auto.
Qed.

Lemma append_same_length (p p' k k' : string) :
  String.length p = String.length p' ->
  (p ++ k = p' ++ k')%string -> p = p'.
Proof.
  revert p'. induction p as [| x p IH]; intros [| y p']; cbn; intros Hlen H;
    try discriminate.
  - reflexivity.
  - inversion H. inversion Hlen. f_equal. eauto.
Qed.

Lemma unseal_sealed (password key : string) :
  Mock.unseal (Mock.sealed password key) password
  = inr {| privateKey := key; mnemonic := None; signer_provider := None |}.
Proof.
  unfold Mock.unseal, Mock.sealed. rewrite strip_prefix_common. cbn.
  rewrite strip_prefix_app. reflexivity.
Qed.

Lemma unseal_other_password (password password' key : string) :
  password' <> password ->
  Mock.unseal (Mock.sealed password key) password' = inl (Error "invalid password").
Proof.
  intros Hne. unfold Mock.unseal, Mock.sealed.
  destruct (Mock.strip_prefix _ _) as [r |] eqn:E; [| reflexivity].
  apply strip_prefix_inv in E. rewrite string_app_assoc in E. cbn in E.
  apply unary_split in E. destruct E as [Hlen Hbody].
  exfalso. apply Hne. symmetry.
  eapply append_same_length; [| exact Hbody].
  exact Hlen.
Qed.

Lemma sealed_nonempty (password key : string) :
  Mock.sealed password key <> ""%string.
Proof.
  unfold Mock.sealed. destruct (String.length password); cbn; discriminate.
Qed.

Lemma mock_keystore_sound (d : Z) (b : N) (ev : list TransferEvent)
                          (h : list TransactionResponse) :
  keystore_sound (Mock.world d b ev h).
Proof.
  constructor; cbn.
  - intros _ _ w password json H. inversion H; subst.
    eexists. split; [apply unseal_sealed | reflexivity].
  - intros _ _ w password password' json H Hne. inversion H; subst.
    apply unseal_other_password. exact Hne.
  - intros _ w password json H. inversion H; subst. apply sealed_nonempty.
Qed.

(** ** lock and unlock *)

Lemma lock_resolved (W : World) (st st1 : State) (w : Signer) (password json : string) :
  this_wallet (session st) = Some w ->
  async (lock W password) st = (Resolved json, st1) ->
  session st1 = locked_session (session st) json
  /\ (this_encryptedJsonWallet (session st) = ""%string ->
      encrypt W (trace st) w password = inr json
      /\ trace st1 = trace st ++ [CallEncrypt w password])
  /\ (this_encryptedJsonWallet (session st) <> ""%string ->
      json = this_encryptedJsonWallet (session st) /\ trace st1 = trace st).
Proof.
  intros Hw. unfold lock, the_wallet. run_body.
  destruct (String.eqb_spec (this_encryptedJsonWallet (session st)) "") as [Hnone | Hsome].
  - rewrite Hw.
    destruct (encrypt W (trace st) w password) as [e | json'] eqn:E;
      cbn; intros H; inversion H; subst.
    repeat split; intros; solve [reflexivity | contradiction | congruence].
  - cbn. intros H; inversion H; subst.
    repeat split; intros; solve [reflexivity | contradiction | congruence].
Qed.

Lemma getAddress_unlocked (W : World) (st : State) (w : Signer) :
  this_isLocked (session st) = false ->
  this_wallet (session st) = Some w ->
  sync (getAddress W) st = (Returned (address W w), st).
Proof.
  intros Hopen Hw. unfold getAddress, the_wallet. run_body.
  rewrite Hopen, Hw. reflexivity.
Qed.

(** C2: on an unlocked session, [lock(p)] followed at once by [unlock(p)],
    [p] being the correct passphrase, leaves a session whose [isLocked()]
    is false and whose [getAddress()] is what it was before locking. *)
Theorem lock_unlock_restores (W : World) (st st1 : State) (w : Signer)
                             (password json : string) :
  keystore_sound W ->
  this_isLocked (session st) = false ->
  this_wallet (session st) = Some w ->
  correct_passphrase W (session st) w password ->
  async (lock W password) st = (Resolved json, st1) ->
  exists st2,
    async (unlock W password) st1 = (Resolved tt, st2)
    /\ sync isLocked st2 = (Returned false, st2)
    /\ fst (sync (getAddress W) st) = Returned (address W w)
    /\ fst (sync (getAddress W) st2) = Returned (address W w).
Proof.
  intros Hsound Hopen Hw Hcorrect Hlock.
  destruct (lock_resolved W st st1 w password json Hw Hlock) as [Hs1 [Hfresh Hkept]].
  assert (Hmade : exists t w0, encrypt W t w0 password = inr json
                               /\ privateKey w0 = privateKey w).
  { destruct (String.eqb_spec (this_encryptedJsonWallet (session st)) "") as [Hnone | Hsome].
    - destruct (Hfresh Hnone) as [Henc _]. eauto.
    - destruct (Hkept Hsome) as [-> _].
      destruct Hcorrect as [Hnone | Hex]; [contradiction | exact Hex]. }
  destruct Hmade as [t [w0 [Henc Hkey]]].
  destruct (decrypt_encrypt W Hsound t (trace st1) w0 password json Henc)
    as [w' [Hdec Hkey']].
  destruct st1 as [s1 t1]. cbn [session trace] in *. subst s1.
  exists {| session := set_isLocked false
                         (set_wallet (Some w') (locked_session (session st) json));
            trace := t1 ++ [CallFromEncryptedJson json password] |}.
  split; [| split; [| split]].
  - unfold unlock, initWallet. run_body.
    cbn [locked_session this_encryptedJsonWallet]. rewrite Hdec. reflexivity.
  - reflexivity.
  - rewrite (getAddress_unlocked W st w Hopen Hw). reflexivity.
  - rewrite (getAddress_unlocked W _ w') by reflexivity.
    cbn [fst]. unfold address. rewrite Hkey', Hkey. reflexivity.
Qed.

Lemma lock_unlock_restores_witness :
  exists st2,
    async (unlock Mock.W "hunter2") (snd (async (lock Mock.W "hunter2") Mock.with_usdc))
    = (Resolved tt, st2)
    /\ sync isLocked st2 = (Returned false, st2)
    /\ fst (sync (getAddress Mock.W) Mock.with_usdc) = Returned Mock.me
    /\ fst (sync (getAddress Mock.W) st2) = Returned Mock.me.
Proof.
  apply (lock_unlock_restores Mock.W Mock.with_usdc
           (snd (async (lock Mock.W "hunter2") Mock.with_usdc))
           (Signer_connect Mock.signer {| provider_network := "homestead" |})
           "hunter2" (Mock.sealed "hunter2" Mock.key)).
  - apply mock_keystore_sound.
  - reflexivity.
  - reflexivity.
  - left. reflexivity.
  - reflexivity.
Defined.

(** X4: what the correct passphrase means once a backup exists.  On an
    unlocked session whose backup was produced under one passphrase,
    [lock] under another passphrase keeps that backup and resolves to it,
    and the [unlock] under the new passphrase that follows is rejected: the
    passphrase given to a later [lock] is not the one that unlocks. *)
Theorem relock_keeps_first_passphrase (W : World) (st : State) (w w0 : Signer)
                                      (t0 : Trace) (made_with password : string) :
  keystore_sound W ->
  this_wallet (session st) = Some w ->
  encrypt W t0 w0 made_with = inr (this_encryptedJsonWallet (session st)) ->
  password <> made_with ->
  let st1 := {| session := locked_session (session st)
                             (this_encryptedJsonWallet (session st));
                trace := trace st |} in
  async (lock W password) st = (Resolved (this_encryptedJsonWallet (session st)), st1)
  /\ fst (async (unlock W password) st1) = Rejected (Error "invalid password")
  /\ session (snd (async (unlock W password) st1)) = session st1.
Proof.
  intros Hsound Hw Hmade Hne st1.
  pose proof (encrypt_nonempty W Hsound _ _ _ _ Hmade) as Hsome.
  split; [| split].
  - unfold lock. run_body.
    destruct (String.eqb_spec (this_encryptedJsonWallet (session st)) "") as [Habs | _];
      [contradiction | reflexivity].
  - unfold unlock. run_body. subst st1. cbn [session trace locked_session
                                               this_encryptedJsonWallet].
    rewrite (decrypt_wrong_password W Hsound t0 (trace st) w0 made_with password _
               Hmade Hne).
    reflexivity.
  - unfold unlock. run_body. subst st1. cbn [session trace locked_session
                                               this_encryptedJsonWallet].
    rewrite (decrypt_wrong_password W Hsound t0 (trace st) w0 made_with password _
               Hmade Hne).
    reflexivity.
Qed.

Lemma relock_keeps_first_passphrase_witness :
  let st := run Mock.W [Lock "first"; Unlock "first"] Mock.created in
  let st1 := {| session := locked_session (session st) (Mock.sealed "first" Mock.key);
                trace := trace st |} in
  sync isLocked st = (Returned false, st)
  /\ async (lock Mock.W "second") st = (Resolved (Mock.sealed "first" Mock.key), st1)
  /\ fst (async (unlock Mock.W "second") st1) = Rejected (Error "invalid password")
  /\ session (snd (async (unlock Mock.W "second") st1)) = session st1
  /\ fst (async (unlock Mock.W "first") st1) = Resolved tt.
Proof.
  cbv zeta. split; [reflexivity |].
  destruct (relock_keeps_first_passphrase Mock.W
              (run Mock.W [Lock "first"; Unlock "first"] Mock.created)
              {| privateKey := Mock.key; mnemonic := None; signer_provider := None |}
              Mock.signer [] "first" "second"
              (mock_keystore_sound _ _ _ _) eq_refl eq_refl)
    as [Hlock [Hunlock Hsame]]; [discriminate |].
  split; [exact Hlock |]. split; [exact Hunlock |]. split; [exact Hsame |].
  reflexivity.
Defined.

(** C3: on a locked session whose backup was produced under one passphrase,
    [unlock] with any other passphrase is rejected with the key store's
    "invalid password" error (the specification's AuthenticationError); the
    fields are untouched, so the session is still locked and the signing
    handle still absent; the trace has the one decryption that was tried. *)
Theorem unlock_wrong_passphrase (W : World) (st : State) (t0 : Trace) (w0 : Signer)
                                (made_with password : string) :
  keystore_sound W ->
  this_isLocked (session st) = true ->
  this_wallet (session st) = None ->
  encrypt W t0 w0 made_with = inr (this_encryptedJsonWallet (session st)) ->
  password <> made_with ->
  let st' := {| session := session st;
                trace := trace st ++ [CallFromEncryptedJson
                                        (this_encryptedJsonWallet (session st)) password] |} in
  async (unlock W password) st = (Rejected (Error "invalid password"), st')
  /\ sync isLocked st' = (Returned true, st')
  /\ this_wallet (session st') = None.
Proof.
  intros Hsound Hlocked Hw Hmade Hne. cbv zeta.
  unfold unlock, isLocked. run_body.
  rewrite (decrypt_wrong_password W Hsound t0 (trace st) w0 made_with password _ Hmade Hne).
  rewrite Hlocked. repeat split. exact Hw.
Qed.

Lemma unlock_wrong_passphrase_witness :
  let st := exec Mock.W (Lock "hunter2") Mock.with_usdc in
  let st' := {| session := session st;
                trace := trace st ++ [CallFromEncryptedJson
                                        (Mock.sealed "hunter2" Mock.key) "hunter3"] |} in
  async (unlock Mock.W "hunter3") st = (Rejected (Error "invalid password"), st')
  /\ sync isLocked st' = (Returned true, st')
  /\ this_wallet (session st') = None.
Proof.
  cbv zeta.
  apply (unlock_wrong_passphrase Mock.W (exec Mock.W (Lock "hunter2") Mock.with_usdc)
           [] Mock.signer "hunter2" "hunter3").
  - apply mock_keystore_sound.
  - reflexivity.
  - reflexivity.
  - reflexivity.
  - discriminate.
Defined.

Lemma lock_locked_session (W : World) (s : Session) (t : Trace) (json again : string) :
  json <> ""%string ->
  async (lock W again) {| session := locked_session s json; trace := t |}
  = (Resolved json, {| session := locked_session s json; trace := t |}).
Proof.
  intros Hjson. unfold lock. run_body. cbn [locked_session this_encryptedJsonWallet].
  destruct (String.eqb_spec json "") as [Habs | _]; [contradiction |].
  reflexivity.
Qed.

(** C5: on an unlocked session, [lock(passphrase)]
    - with a backup already there, asks the key store nothing, clears the
      signing handle, the provider, the token list and the network name,
      sets the lock flag and resolves to that backup;
    - with no backup yet, asks the key store once to encrypt the signing
      handle under the passphrase, stores the answer as the backup, clears
      the same fields and resolves to the new backup;
    - and a further [lock], under any passphrase, on the session so locked
      resolves to the same string and changes neither the fields nor the
      trace: nothing is encrypted again. *)
Theorem lock_clears_and_returns_backup (W : World) (st : State) (w : Signer)
                                       (password : string) :
  keystore_sound W ->
  this_isLocked (session st) = false ->
  this_wallet (session st) = Some w ->
  let s := session st in
  (this_encryptedJsonWallet s <> ""%string ->
   async (lock W password) st
   = (Resolved (this_encryptedJsonWallet s),
      {| session := locked_session s (this_encryptedJsonWallet s); trace := trace st |}))
  /\ (forall json,
        this_encryptedJsonWallet s = ""%string ->
        encrypt W (trace st) w password = inr json ->
        async (lock W password) st
        = (Resolved json,
           {| session := locked_session s json;
              trace := trace st ++ [CallEncrypt w password] |}))
  /\ (forall json st1 again,
        async (lock W password) st = (Resolved json, st1) ->
        sync isLocked st1 = (Returned true, st1)
        /\ this_wallet (session st1) = None
        /\ this_provider (session st1) = None
        /\ this_tokens (session st1) = []
        /\ this_network (session st1) = ""%string
        /\ this_encryptedJsonWallet (session st1) = json
        /\ async (lock W again) st1 = (Resolved json, st1)).
Proof.
  intros Hsound Hopen Hw s. subst s. split; [| split].
  - intros Hsome. unfold lock. run_body.
    destruct (String.eqb_spec (this_encryptedJsonWallet (session st)) "") as [Habs | _];
      [contradiction | reflexivity].
  - intros json Hnone Henc. unfold lock, the_wallet. run_body.
    rewrite Hnone. cbn. rewrite Hw, Henc. reflexivity.
  - intros json st1 again Hlock.
    destruct (lock_resolved W st st1 w password json Hw Hlock) as [Hs1 [Hfresh Hkept]].
    assert (Hjson : json <> ""%string).
    { destruct (String.eqb_spec (this_encryptedJsonWallet (session st)) "") as [Hnone | Hsome].
      - destruct (Hfresh Hnone) as [Henc _].
        exact (encrypt_nonempty W Hsound _ _ _ _ Henc).
      - destruct (Hkept Hsome) as [-> _]. exact Hsome. }
    destruct st1 as [s1 t1]. cbn [session trace] in *. subst s1.
    repeat split. apply lock_locked_session. exact Hjson.
Qed.

Lemma lock_clears_and_returns_backup_witness :
  let st := Mock.with_usdc in
  let json := Mock.sealed "hunter2" Mock.key in
  let st1 := {| session := locked_session (session st) json;
                trace := trace st ++ [CallEncrypt
                                        (Signer_connect Mock.signer
                                           {| provider_network := "homestead" |})
                                        "hunter2"] |} in
  async (lock Mock.W "hunter2") st = (Resolved json, st1)
  /\ sync isLocked st1 = (Returned true, st1)
  /\ async (lock Mock.W "other") st1 = (Resolved json, st1).
Proof.
  cbv zeta.
  destruct (lock_clears_and_returns_backup Mock.W Mock.with_usdc
              (Signer_connect Mock.signer {| provider_network := "homestead" |})
              "hunter2" (mock_keystore_sound _ _ _ _) eq_refl eq_refl)
    as [_ [Hfresh Hagain]].
  pose proof (Hfresh (Mock.sealed "hunter2" Mock.key) eq_refl eq_refl) as Hlock.
  destruct (Hagain _ _ "other" Hlock) as [Hflag [_ [_ [_ [_ [_ Hrelock]]]]]].
  split; [exact Hlock | split; [exact Hflag | exact Hrelock]].
Defined.

(** ** Token balance *)

Lemma find_token_unique (tokens : list Token) (token : Token) :
  NoDup (map token_address tokens) ->
  In token tokens ->
  find_token (token_address token) tokens = Some token.
Proof.
  unfold find_token. induction tokens as [| x tokens IH]; cbn; intros Huniq Hin.
  - destruct Hin.
  - inversion Huniq as [| y ys Hnotin Hrest]; subst.
    destruct Hin as [-> | Hin].
    + rewrite String.eqb_refl. reflexivity.
    + destruct (String.eqb_spec (token_address x) (token_address token)) as [Heq | Hne].
      * exfalso. apply Hnotin. rewrite Heq. apply in_map. exact Hin.
      * apply IH; assumption.
Qed.

Lemma toNumber_fits (q : Z) :
  0 <= q < 2 ^ 53 -> BigNumber.toNumber q = inr q.
Proof.
  intros Hq. unfold BigNumber.toNumber.
  destruct (Z.ltb_spec (Z.abs q) (2 ^ 53)) as [_ | Hbig]; [reflexivity | lia].
Qed.

Lemma toNumber_overflow (q : Z) :
  2 ^ 53 <= q -> BigNumber.toNumber q = inl (NumericFault "overflow").
Proof.
  intros Hq. unfold BigNumber.toNumber.
  destruct (Z.ltb_spec (Z.abs q) (2 ^ 53)) as [Hsmall | _]; [lia | reflexivity].
Qed.

Lemma div_scaled (B : N) (d : Z) :
  0 <= d ->
  BigNumber.div (Z.of_N B) (10 ^ d) = inr (Z.of_N B / 10 ^ d)
  /\ 0 <= Z.of_N B / 10 ^ d.
Proof.
  intros Hd. assert (Hpos : 0 < 10 ^ d) by (apply Z.pow_pos_nonneg; lia).
  assert (HB : 0 <= Z.of_N B) by apply N2Z.is_nonneg.
  unfold BigNumber.div.
  destruct (Z.eqb_spec (10 ^ d) 0) as [Hzero | _]; [lia |].
  rewrite Z.quot_div_nonneg by lia. split; [reflexivity |].
  apply Z.div_pos; lia.
Qed.

(** What [getTokenBalance] does on an unlocked session whose token list
    is given directly: with the entry [find] returns for [A], built with
    the scale [10^d], and the raw balance [B] reported, it resolves to
    [floor(B / 10^d)] when that quotient is below 2^53 and is rejected with
    the library's overflow fault otherwise. *)
Lemma getTokenBalance_registered (W : World) (st : State) (A : string)
      (w : Signer) (token : Token) (B : N) :
  this_isLocked (session st) = false ->
  this_wallet (session st) = Some w ->
  find_token A (this_tokens (session st)) = Some token ->
  token_scaled token ->
  balanceOf W (trace st) (contract token) (address W w) = inr B ->
  let whole := Z.of_N B / 10 ^ token_decimals token in
  let st' := {| session := session st;
                trace := trace st ++ [CallBalanceOf (contract token) (address W w)] |} in
  (whole < 2 ^ 53 -> async (getTokenBalance W A) st = (Resolved whole, st'))
  /\ (2 ^ 53 <= whole ->
      async (getTokenBalance W A) st = (Rejected (NumericFault "overflow"), st')).
Proof.
  intros Hopen Hw Hfound [Hd Hone] HB whole st'.
  destruct (div_scaled B _ Hd) as [Hdiv Hnonneg].
  assert (Hrun : forall r,
             BigNumber.toNumber whole = r ->
             async (getTokenBalance W A) st
             = (match r with inl e => Rejected e | inr n => Resolved n end, st')).
  { intros r Hr. unfold getTokenBalance, the_wallet. run_body.
    rewrite Hopen, Hfound. cbn. rewrite Hw. cbn. rewrite HB. cbn.
    rewrite Hone, Hdiv. cbn. fold whole. rewrite Hr. destruct r; reflexivity. }
  split; intros Hsize.
  - apply (Hrun (inr whole)). apply toNumber_fits. subst whole. lia.
  - apply (Hrun (inl (NumericFault "overflow"))). apply toNumber_overflow. exact Hsize.
Qed.



Lemma getTokenBalance_registered_witness :
  async (getTokenBalance Mock.W Mock.usdc) Mock.with_usdc
  = (Resolved 1,
     {| session := session Mock.with_usdc;
        trace := trace Mock.with_usdc
                 ++ [CallBalanceOf (contract Mock.usdc_token) Mock.me] |})
  /\ fst (async (getTokenBalance (Mock.world 18 (10 ^ 40) [] []) Mock.usdc) Mock.with_usdc)
     = Rejected (NumericFault "overflow").
Proof.
  split.
  - refine (proj1 (getTokenBalance_registered Mock.W Mock.with_usdc Mock.usdc
                     (Signer_connect Mock.signer {| provider_network := "homestead" |})
                     Mock.usdc_token 1500000%N eq_refl eq_refl eq_refl _ eq_refl) _).
    + split; [vm_compute; discriminate | reflexivity].
    + vm_compute. reflexivity.
  - refine (f_equal fst
              (proj2 (getTokenBalance_registered (Mock.world 18 (10 ^ 40) [] [])
                        Mock.with_usdc Mock.usdc
                        (Signer_connect Mock.signer {| provider_network := "homestead" |})
                        Mock.usdc_token (10 ^ 40)%N eq_refl eq_refl eq_refl _ eq_refl) _)).
    + split; [vm_compute; discriminate | reflexivity].
    + vm_compute. discriminate.
Defined.

(** ** Token history *)

Lemma involves_spec (me : string) (ev : TransferEvent) :
  involves me ev = spec_involves me ev.
Proof.
  unfold involves, spec_involves, args. cbn. rewrite Bool.orb_false_r. reflexivity.
Qed.

Lemma spec_involves_iff (me : string) (ev : TransferEvent) :
  spec_involves me ev = true <-> ev_from ev = me \/ ev_to ev = me.
Proof.
  unfold spec_involves. rewrite Bool.orb_true_iff, !String.eqb_eq. tauto.
Qed.

Lemma spec_status_cases (me : string) (ev : TransferEvent) :
  (ev_from ev = me /\ ev_to ev = me /\ spec_status me ev = "SELF"%string)
  \/ (ev_from ev = me /\ ev_to ev <> me /\ spec_status me ev = "OUT"%string)
  \/ (ev_from ev <> me /\ spec_status me ev = "IN"%string).
Proof.
  unfold spec_status.
  destruct (String.eqb_spec (ev_from ev) me); destruct (String.eqb_spec (ev_to ev) me);
    tauto.
Qed.

Lemma token_entry_spec (me : string) (ev : TransferEvent) :
  token_entry me ev = inr (spec_entry me ev).
Proof.
  unfold token_entry, token_amount, spec_entry, spec_amount, spec_status, status_of.
  change (BigNumber.pow 10 18) with (@inr Exn Z (10 ^ 18)). cbv iota beta.
  destruct (div_scaled (ev_amount ev) 18) as [Hdiv _]; [lia |].
  rewrite Hdiv.
  destruct (String.eqb (ev_from ev) me); destruct (String.eqb (ev_to ev) me); reflexivity.
Qed.

Lemma map_throwing_total {A B} (f : A -> Exn + B) (g : A -> B) (l : list A) :
  (forall x, f x = inr (g x)) -> map_throwing f l = inr (map g l).
Proof.
  intros Hf. induction l as [| x l IH]; cbn; [reflexivity |].
  rewrite Hf, IH. reflexivity.
Qed.

(** C7: [getTokenHistory(A)] is rejected when the wallet is locked and when
    [A] is not registered, in both cases before anything is asked; for a
    registered token on an unlocked session it asks the contract for its
    Transfer events once and resolves to one entry for each event whose
    sender or recipient is the wallet's address, in the log's order and for
    no other event, each entry carrying the event's hash, sender and
    recipient, the status SELF, OUT or IN and the amount divided by 10^18,
    whatever decimals the token was registered with. *)
Theorem getTokenHistory_transfers (W : World) (st : State) (A : string) :
  (this_isLocked (session st) = true ->
   async (getTokenHistory W A) st = (Rejected (Error "Wallet is locked!"), st))
  /\ (this_isLocked (session st) = false ->
      find_token A (this_tokens (session st)) = None ->
      async (getTokenHistory W A) st = (Rejected (Error "Token does now exist!"), st))
  /\ (forall w token events,
        this_isLocked (session st) = false ->
        this_wallet (session st) = Some w ->
        find_token A (this_tokens (session st)) = Some token ->
        queryFilter W (trace st) (contract token) "Transfer" = inr events ->
        let me := address W w in
        async (getTokenHistory W A) st
        = (Resolved (map (spec_entry me) (filter (spec_involves me) events)),
           {| session := session st;
              trace := trace st ++ [CallQueryFilter (contract token) "Transfer"] |}))
  /\ (forall me ev,
        (spec_involves me ev = true <-> ev_from ev = me \/ ev_to ev = me)
        /\ (th_status (spec_entry me ev) = "SELF"%string <->
            ev_from ev = me /\ ev_to ev = me)
        /\ (th_status (spec_entry me ev) = "OUT"%string <->
            ev_from ev = me /\ ev_to ev <> me)
        /\ (th_status (spec_entry me ev) = "IN"%string <-> ev_from ev <> me)
        /\ th_amount (spec_entry me ev)
           = BigNumber.toString (Z.of_N (ev_amount ev) / 10 ^ 18)).
Proof.
  split; [| split; [| split]].
  - intros Hlocked. unfold getTokenHistory. run_body. rewrite Hlocked. reflexivity.
  - intros Hopen Hnone. unfold getTokenHistory. run_body.
    rewrite Hopen, Hnone. reflexivity.
  - intros w token events Hopen Hw Hfound Hevents me.
    unfold getTokenHistory, the_wallet. run_body.
    rewrite Hopen, Hfound. cbn. rewrite Hevents.
    destruct events as [| ev events]; [reflexivity |].
    cbn [fst snd session trace]. rewrite Hw. cbn [fst snd session trace].
    fold me.
    rewrite (map_throwing_total (token_entry me) (spec_entry me))
      by apply token_entry_spec.
    rewrite (filter_ext (involves me) (spec_involves me)) by apply involves_spec.
    reflexivity.
  - intros me ev. split; [apply spec_involves_iff |].
    cbn [th_status th_amount spec_entry].
    destruct (spec_status_cases me ev) as [[Hf [Ht ->]] | [[Hf [Ht ->]] | [Hf ->]]];
      repeat split; intros; try tauto; try discriminate;
      match goal with H : _ /\ _ |- _ => destruct H; contradiction | _ => idtac end.
Qed.

Lemma getTokenHistory_transfers_witness :
  fst (async (getTokenHistory Mock.W Mock.usdc) Mock.with_usdc)
  = Resolved
      [ {| th_transactionHash := "0x01"; th_status := "OUT";
           th_from := Mock.me; th_to := Mock.friend; th_amount := "2" |};
        {| th_transactionHash := "0x03"; th_status := "IN";
           th_from := Mock.friend; th_to := Mock.me; th_amount := "1" |};
        {| th_transactionHash := "0x04"; th_status := "SELF";
           th_from := Mock.me; th_to := Mock.me; th_amount := "0" |} ].
Proof.
  destruct (getTokenHistory_transfers Mock.W Mock.with_usdc Mock.usdc)
    as [_ [_ [Hregistered _]]].
  rewrite (Hregistered
             (Signer_connect Mock.signer {| provider_network := "homestead" |})
             {| token_symbol := "USDC"; token_address := Mock.usdc;
                token_decimals := 6; oneToken := 1000000;
                contract := {| contract_address := Mock.usdc;
                               contract_signer :=
                                 Signer_connect Mock.signer
                                   {| provider_network := "homestead" |} |} |}
             Mock.transfers eq_refl eq_refl eq_refl eq_refl).
  reflexivity.
Defined.

(** ** Sending ether *)




(** ** A locked session *)

(** X1: every query and send the lock flag or the missing handle stops.  On
    a locked session the three getters throw, and [getEtherBalance],
    [getTokenBalance], [getTokenHistory], [sendToken], [sendEther] and
    [getEtherHistory] called without its [address] argument are rejected;
    in each case the state, trace included, is the one before the call. *)
Theorem locked_session_refuses (W : World) (st : State) :
  locked (session st) ->
  sync (getAddress W) st = (Thrown locked_error, st)
  /\ sync getPrivateKey st = (Thrown locked_error, st)
  /\ sync getMnemonics st = (Thrown locked_error, st)
  /\ async (getEtherBalance W) st = (Rejected locked_error, st)
  /\ (forall A, async (getTokenBalance W A) st = (Rejected locked_error, st))
  /\ (forall A, async (getTokenHistory W A) st = (Rejected locked_error, st))
  /\ (forall A to amount gas speed,
        async (sendToken W A to amount gas speed) st = (Rejected locked_error, st))
  /\ (forall to amount gas speed,
        exists e, async (sendEther W to amount gas speed) st = (Rejected e, st))
  /\ (forall network startBlock endBlock,
        async (getEtherHistory W network None startBlock endBlock) st
        = (Rejected null_wallet, st)).
Proof.
  intros [Hflag Hw].
  unfold getAddress, getPrivateKey, getMnemonics, getEtherBalance, getTokenBalance,
    getTokenHistory, sendToken, sendEther, getEtherHistory, the_wallet.
  run_body. rewrite Hflag.
  repeat split; intros.
  - destruct (utils_getAddress W to); [| rewrite Hw]; eexists; reflexivity.
  - rewrite Hw. reflexivity.
Qed.

(** With [address] given, [getEtherHistory] never looks at the session's
    lock: whatever the state, the explorer is asked and its answer
    reshaped. *)
Lemma getEtherHistory_explicit_address (W : World) (st : State)
    (network : option string) (addr : string) (startBlock endBlock : option BlockTag)
    (explorer : Provider) :
  let network' := default network (this_network (session st)) in
  let startBlock' := default startBlock (BlockNumber 0) in
  let endBlock' := default endBlock (BlockName "latest") in
  EtherscanProvider W network' = inr explorer ->
  async (getEtherHistory W network (Some addr) startBlock endBlock) st
  = (match getHistory W (trace st) network' addr startBlock' endBlock' with
     | inl e => Rejected e
     | inr historyList => Resolved (map (ether_entry W addr) historyList)
     end,
     {| session := session st;
        trace := trace st ++ [CallGetHistory network' addr startBlock' endBlock'] |}).
Proof.
  cbv zeta. intros Hexplorer. unfold getEtherHistory. run_body.
  rewrite Hexplorer. cbn.
  destruct (getHistory W (trace st) _ addr _ _); reflexivity.
Qed.

(** C1 fails on [getEtherHistory]: on the locked session obtained by
    [lock("hunter2")], the call [getEtherHistory("homestead", me)] is not
    rejected; the block explorer is asked and the promise resolves to the
    reshaped history.  ([getTokenHistory], next to it in the source, tests
    the lock flag first.) *)
Theorem getEtherHistory_answers_while_locked :
  let st := exec Mock.W (Lock "hunter2") Mock.with_usdc in
  locked (session st)
  /\ sync isLocked st = (Returned true, st)
  /\ async (getEtherHistory Mock.W (Some "homestead") (Some Mock.me) None None) st
     = (Resolved
          [ {| eh_transactionHash := "0x0a"; eh_status := "IN";
               eh_from := Mock.friend; eh_to := Some Mock.me;
               eh_amount := "1"; eh_timestamp := Some 1600000000 |};
            {| eh_transactionHash := "0x0b"; eh_status := "OUT";
               eh_from := Mock.me; eh_to := None;
               eh_amount := "0"; eh_timestamp := Some 1600000100 |} ],
        {| session := session st;
           trace := trace st ++ [CallGetHistory "homestead" Mock.me
                                   (BlockNumber 0) (BlockName "latest")] |})
  /\ async (getTokenHistory Mock.W Mock.usdc) st = (Rejected locked_error, st).
Proof.
  cbv zeta. repeat split.
Qed.

Lemma locked_session_refuses_witness :
  let st := exec Mock.W (Lock "hunter2") Mock.with_usdc in
  sync (getAddress Mock.W) st = (Thrown (Error "Wallet is locked!"), st)
  /\ async (getEtherBalance Mock.W) st = (Rejected (Error "Wallet is locked!"), st)
  /\ async (sendToken Mock.W Mock.usdc Mock.friend "1" "10" None) st
     = (Rejected (Error "Wallet is locked!"), st)
  /\ async (getEtherHistory Mock.W None None None None) st = (Rejected null_wallet, st).
Proof.
  cbv zeta.
  destruct (locked_session_refuses Mock.W (exec Mock.W (Lock "hunter2") Mock.with_usdc)
              (conj eq_refl eq_refl))
    as [Haddress [_ [_ [Hbalance [_ [_ [Htoken [_ Hhistory]]]]]]]].
  split; [exact Haddress |]. split; [exact Hbalance |]. split.
  - exact (Htoken Mock.usdc Mock.friend "1" "10" None).
  - exact (Hhistory None None None).
Defined.

(** ** The lock flag and the signing handle *)

(** X2: in every reachable state the lock flag is set exactly when the signing
    handle is absent, and a locked session has no token, no provider and no
    network name. *)
Theorem locked_iff_no_handle (W : World) (st : State) :
  reachable W st ->
  (this_isLocked (session st) = true <-> this_wallet (session st) = None)
  /\ (this_isLocked (session st) = true ->
      this_tokens (session st) = []
      /\ this_provider (session st) = None
      /\ this_network (session st) = ""%string).
Proof.
  intros Hreach. apply reachable_consistent in Hreach.
  destruct Hreach as [_ _ Hlocked Hunlocked Hcleared]. split; [split |].
  - exact Hlocked.
  - intros Hw. destruct (this_isLocked (session st)) eqn:E; [reflexivity |].
    exfalso. exact (Hunlocked eq_refl Hw).
  - exact Hcleared.
Qed.

Lemma locked_iff_no_handle_witness :
  let st := run Mock.W [Lock "hunter2"; Unlock "wrong"] Mock.ready in
  (this_isLocked (session st) = true <-> this_wallet (session st) = None)
  /\ (this_isLocked (session st) = true ->
      this_tokens (session st) = []
      /\ this_provider (session st) = None
      /\ this_network (session st) = ""%string).
Proof.
  cbv zeta. apply (locked_iff_no_handle Mock.W).
  apply reachable_run. exact mock_ready_reachable.
Defined.

(** ** Removing a token *)

Lemma filter_other_all (A : string) (tokens : list Token) :
  ~ In A (map token_address tokens) ->
  filter (fun token => negb (String.eqb (token_address token) A)) tokens = tokens.
Proof.
  induction tokens as [| x tokens IH]; cbn; intros Hnotin; [reflexivity |].
  destruct (String.eqb_spec (token_address x) A) as [Heq | Hne]; cbn.
  - exfalso. apply Hnotin. left. exact Heq.
  - rewrite IH; [reflexivity |]. intros Hin. apply Hnotin. right. exact Hin.
Qed.

Lemma filter_other_one_less (A : string) (tokens : list Token) :
  NoDup (map token_address tokens) ->
  In A (map token_address tokens) ->
  S (List.length (filter (fun token => negb (String.eqb (token_address token) A)) tokens))
  = List.length tokens.
Proof.
  induction tokens as [| x tokens IH]; cbn; intros Huniq Hin; [destruct Hin |].
  inversion Huniq as [| y ys Hnotin Hrest]; subst.
  destruct (String.eqb_spec (token_address x) A) as [Heq | Hne]; cbn.
  - subst A. rewrite filter_other_all by exact Hnotin. reflexivity.
  - destruct Hin as [Habs | Hin]; [contradiction |].
    rewrite IH by assumption. reflexivity.
Qed.

(** X3: on an unlocked session whose token list holds no address twice, as
    in every reachable state, [removeToken(A)] returns at once when no entry
    carries the address [A]; otherwise it leaves exactly the entries whose
    address differs from [A], in their order, which is one entry fewer.  The
    trace is untouched either way. *)
Theorem removeToken_removes_the_entry (st : State) (A : string) :
  NoDup (addresses (session st)) ->
  this_isLocked (session st) = false ->
  let kept := filter (fun token => negb (String.eqb (token_address token) A))
                     (this_tokens (session st)) in
  (~ In A (addresses (session st)) -> sync (removeToken A) st = (Returned tt, st))
  /\ (In A (addresses (session st)) ->
      sync (removeToken A) st
      = (Returned tt, {| session := set_tokens kept (session st); trace := trace st |})
      /\ S (List.length kept) = List.length (this_tokens (session st))
      /\ forall token,
           In token kept <->
           In token (this_tokens (session st)) /\ token_address token <> A).
Proof.
  intros Huniq Hopen kept. split.
  - intros Hnew. apply find_token_none in Hnew.
    unfold removeToken. run_body. rewrite Hopen, Hnew. reflexivity.
  - intros Hin. destruct (find_token_registered _ _ Hin) as [token Hfound].
    split; [| split].
    + unfold removeToken. run_body. rewrite Hopen, Hfound. reflexivity.
    + apply filter_other_one_less; assumption.
    + intros x. subst kept. rewrite filter_In, Bool.negb_true_iff, String.eqb_neq.
      reflexivity.
Qed.

Lemma removeToken_removes_the_entry_witness :
  sync (removeToken Mock.friend) Mock.with_usdc = (Returned tt, Mock.with_usdc)
  /\ sync (removeToken Mock.usdc) Mock.with_usdc
     = (Returned tt,
        {| session := set_tokens [] (session Mock.with_usdc);
           trace := trace Mock.with_usdc |}).
Proof.
  assert (Huniq : NoDup (addresses (session Mock.with_usdc))).
  { vm_compute. constructor; [intros [] | constructor]. }
  split.
  - apply (proj1 (removeToken_removes_the_entry Mock.with_usdc Mock.friend
                    Huniq eq_refl)).
    vm_compute. intros [H | []]. discriminate H.
  - apply (proj2 (removeToken_removes_the_entry Mock.with_usdc Mock.usdc
                    Huniq eq_refl)).
    vm_compute. left. reflexivity.
Defined.

(** ** What the methods never do *)

Lemma reads_only_keeps_fields (W : World) (op : Op) (st : State) :
  reads_only op = true -> session (exec W op st) = session st.
Proof.
  destruct st as [s t].
  destruct op; cbn [reads_only]; intros Hop; try discriminate Hop; cbn [exec];
    unfold_methods; run_body; branches; reflexivity.
Qed.

Lemma synchronous_keeps_trace (W : World) (op : Op) (st : State) :
  synchronous op = true -> trace (exec W op st) = trace st.
Proof.
  destruct st as [s t].
  destruct op; cbn [synchronous]; intros Hop; try discriminate Hop; cbn [exec];
    unfold_methods; run_body; branches; reflexivity.
Qed.

Lemma exec_at_most_one_call (W : World) (op : Op) (st : State) :
  exists calls,
    trace (exec W op st) = trace st ++ calls /\ (List.length calls <= 1)%nat.
Proof.
  destruct st as [s t].
  destruct op; cbn [exec]; unfold_methods; run_body; branches;
    first [ exists []; split; [symmetry; apply app_nil_r | cbn; lia]
          | eexists; split; [reflexivity | cbn; lia] ].
Qed.

(** X5: in any state and against any world, a getter or a query
    ([isLocked], [getAddress], [getProvider], [getNetwork], [getMnemonics],
    [getPrivateKey], [getEtherBalance], [getTokenBalance],
    [getEtherHistory], [getTokenHistory]) leaves every field as it was,
    whether it answers or fails; a method that is not [async] ([connect],
    [removeToken] and the six getters) makes no outside call; and every
    method makes at most one outside call, the earlier trace being kept. *)
Theorem methods_never (W : World) (op : Op) (st : State) :
  (reads_only op = true -> session (exec W op st) = session st)
  /\ (synchronous op = true -> trace (exec W op st) = trace st)
  /\ exists calls,
       trace (exec W op st) = trace st ++ calls /\ (List.length calls <= 1)%nat.
Proof.
  split; [apply reads_only_keeps_fields |].
  split; [apply synchronous_keeps_trace | apply exec_at_most_one_call].
Qed.

Lemma methods_never_witness :
  session (exec Mock.W (GetTokenBalance Mock.usdc) Mock.with_usdc)
  = session Mock.with_usdc
  /\ trace (exec Mock.W (Connect (Some "ropsten")) Mock.with_usdc)
     = trace Mock.with_usdc
  /\ exists calls,
       trace (exec Mock.W (Lock "hunter2") Mock.with_usdc)
       = trace Mock.with_usdc ++ calls
       /\ (List.length calls <= 1)%nat.
Proof.
  split; [| split].
  - exact (proj1 (methods_never Mock.W (GetTokenBalance Mock.usdc) Mock.with_usdc)
             eq_refl).
  - exact (proj1 (proj2 (methods_never Mock.W (Connect (Some "ropsten"))
                           Mock.with_usdc)) eq_refl).
  - exact (proj2 (proj2 (methods_never Mock.W (Lock "hunter2") Mock.with_usdc))).
Defined.

(** ** Connecting *)

Lemma getTokenBalance_same_question (W : World) (s s' : Session) (t : Trace) :
  this_isLocked s' = this_isLocked s ->
  this_tokens s' = this_tokens s ->
  (forall w, this_wallet s = Some w ->
             exists w', this_wallet s' = Some w' /\ address W w' = address W w) ->
  (this_wallet s = None -> this_wallet s' = None) ->
  forall A,
    fst (async (getTokenBalance W A) {| session := s'; trace := t |})
    = fst (async (getTokenBalance W A) {| session := s; trace := t |}).
Proof.
  intros Hflag Htokens Hsome Hnone A.
  unfold getTokenBalance, the_wallet. run_body. rewrite Hflag, Htokens.
  destruct (this_isLocked s); [reflexivity |].
  destruct (find_token A (this_tokens s)) as [token |]; [| reflexivity].
  cbn beta iota. cbn [session trace].
  destruct (this_wallet s) as [w |] eqn:Hw.
  - destruct (Hsome w eq_refl) as [w' [Hw' Haddr]]. rewrite Hw'. cbn beta iota.
    cbn [session trace]. rewrite Haddr.
    destruct (balanceOf W t (contract token) (address W w)) as [e | balance];
      [reflexivity |].
    cbn beta iota.
    destruct (BigNumber.div (Z.of_N balance) (oneToken token)) as [e | q];
      [reflexivity |].
    cbn beta iota. destruct (BigNumber.toNumber q); reflexivity.
  - rewrite (Hnone eq_refl). reflexivity.
Qed.

(** X6: [connect(network)], [network] defaulting to "homestead",
    - throws "Wallet is null! ..." and changes nothing when the signing
      handle is absent, and throws what [getDefaultProvider] throws, again
      changing nothing, when the library knows no such network;
    - otherwise makes no outside call, stores what [getDefaultProvider]
      returned, a provider or null, and the network name ([getProvider] and
      [getNetwork] return them) and replaces the handle by the same key
      bound to it, so [getAddress] is unchanged; the lock flag, the nonce,
      the backup and the token list are untouched, and [getTokenBalance]
      asks the same contract the same question after the connect as before
      it;
    - so when the library returns null, [connect] returns normally with the
      network name set and the handle unconnected: [addToken] for a new
      address is then rejected with "There is no signer or network
      provider!", as on a session never connected. *)
Theorem connect_rebinds_the_handle (W : World) (st : State) (network : option string) :
  let name := default network "homestead" in
  (this_wallet (session st) = None ->
   sync (connect W network) st
   = (Thrown (Error "Wallet is null! You cannot connect to the network without a wallet!"),
      st))
  /\ (forall w e,
        this_wallet (session st) = Some w ->
        getDefaultProvider W name = inl e ->
        sync (connect W network) st = (Thrown e, st))
  /\ (forall w p,
        this_wallet (session st) = Some w ->
        getDefaultProvider W name = inr p ->
        exists st',
          sync (connect W network) st = (Returned tt, st')
          /\ trace st' = trace st
          /\ sync getNetwork st' = (Returned name, st')
          /\ sync getProvider st' = (Returned p, st')
          /\ this_wallet (session st') = Some (Signer_rebind w p)
          /\ privateKey (Signer_rebind w p) = privateKey w
          /\ signer_provider (Signer_rebind w p) = p
          /\ fst (sync (getAddress W) st') = fst (sync (getAddress W) st)
          /\ this_isLocked (session st') = this_isLocked (session st)
          /\ this_transactionNonce (session st') = this_transactionNonce (session st)
          /\ this_encryptedJsonWallet (session st')
             = this_encryptedJsonWallet (session st)
          /\ this_tokens (session st') = this_tokens (session st)
          /\ (forall A,
                fst (async (getTokenBalance W A) st')
                = fst (async (getTokenBalance W A) st))
          /\ (p = None ->
              this_isLocked (session st) = false ->
              forall symbol A,
                ~ In A (addresses (session st)) ->
                async (addToken W symbol A) st'
                = (Rejected (Error "There is no signer or network provider!"), st'))).
Proof.
  cbv zeta. destruct st as [s t]. cbn [session trace]. split; [| split].
  - intros Hw. unfold connect. run_body. rewrite Hw. reflexivity.
  - intros w e Hw Hp. unfold connect. run_body. rewrite Hw. cbn. rewrite Hp. reflexivity.
  - intros w p Hw Hp.
    exists {| session := set_wallet (Some (Signer_rebind w p))
                           (set_network (default network "homestead")
                              (set_provider p s));
              trace := t |}.
    split.
    { unfold connect. run_body. rewrite Hw. cbn. rewrite Hp. reflexivity. }
    repeat (split; [reflexivity |]).
    split.
    { unfold getAddress, the_wallet. run_body.
      cbn [this_isLocked this_wallet set_wallet set_network set_provider].
      destruct (this_isLocked s); [reflexivity |]. cbn beta iota.
      cbn [session this_wallet set_wallet]. rewrite Hw. reflexivity. }
    repeat (split; [reflexivity |]).
    split.
    { apply getTokenBalance_same_question; cbn; try reflexivity.
      + intros w0 Hw0. rewrite Hw in Hw0. inversion Hw0; subst. eauto.
      + intros Habs. rewrite Hw in Habs. discriminate. }
    intros -> Hopen symbol A Hnew. apply find_token_none in Hnew.
    unfold addToken, createERC20TokenContract. run_body.
    cbn [this_isLocked this_tokens this_wallet set_wallet set_network set_provider].
    rewrite Hopen, Hnew. reflexivity.
Qed.

Lemma connect_rebinds_the_handle_witness :
  (exists st',
     sync (connect Mock.W None) Mock.with_usdc = (Returned tt, st')
     /\ sync getNetwork st' = (Returned "homestead", st')
     /\ sync getProvider st' = (Returned (Some {| provider_network := "homestead" |}), st')
     /\ fst (sync (getAddress Mock.W) st') = Returned Mock.me
     /\ fst (async (getTokenBalance Mock.W Mock.usdc) st') = Resolved 1)
  /\ (exists st',
        sync (connect Mock.W (Some "ropsten")) Mock.with_usdc = (Returned tt, st')
        /\ sync getNetwork st' = (Returned "ropsten", st')
        /\ sync getProvider st' = (Returned None, st')
        /\ fst (sync (getAddress Mock.W) st') = Returned Mock.me
        /\ this_tokens (session st') = this_tokens (session Mock.with_usdc)
        /\ fst (async (getTokenBalance Mock.W Mock.usdc) st') = Resolved 1
        /\ async (addToken Mock.W "DAI" Mock.friend) st'
           = (Rejected (Error "There is no signer or network provider!"), st')).
Proof.
  split.
  - destruct (proj2 (proj2 (connect_rebinds_the_handle Mock.W Mock.with_usdc None))
                (Signer_connect Mock.signer {| provider_network := "homestead" |})
                (Some {| provider_network := "homestead" |}) eq_refl eq_refl)
      as [st' [Hrun [_ [Hnet [Hprov [_ [_ [_ [Haddr [_ [_ [_ [_ [Hbalance _]]]]]]]]]]]]]].
    exists st'. split; [exact Hrun |]. split; [exact Hnet |]. split; [exact Hprov |].
    split; [rewrite Haddr; reflexivity |]. rewrite Hbalance. reflexivity.
  - destruct (proj2 (proj2 (connect_rebinds_the_handle Mock.W Mock.with_usdc
                              (Some "ropsten")))
                (Signer_connect Mock.signer {| provider_network := "homestead" |})
                None eq_refl eq_refl)
      as [st' [Hrun [_ [Hnet [Hprov [_ [_ [_ [Haddr [_ [_ [_ [Htokens
          [Hbalance Hadd]]]]]]]]]]]]]].
    exists st'. split; [exact Hrun |]. split; [exact Hnet |]. split; [exact Hprov |].
    split; [rewrite Haddr; reflexivity |]. split; [exact Htokens |].
    split; [rewrite Hbalance; reflexivity |].
    apply Hadd; [reflexivity | reflexivity |].
    vm_compute. intros [H | []]. discriminate H.
Defined.

(** ** Registering a token *)

(** X7: [addToken] never registers anything.  Whatever the session and the
    arguments, the call changes no field and asks nothing of the outside.
    It is rejected with "Wallet is locked!" on a locked session; on an
    unlocked one it resolves when the address is in the token list, is
    rejected with "There is no signer or network provider!" when the
    signing handle is absent or unconnected, and is otherwise rejected with
    a [TypeError]: the contract is built from [ERC20_ABI], which declares no
    [decimals], so [contract.decimals()] on line 69 calls an undefined
    property and lines 70 to 79 never run.  So in every state a session
    reaches, also through calls that overlap, the token list is empty. *)
Theorem addToken_never_registers (W : World) :
  (forall st symbol A,
     snd (async (addToken W symbol A) st) = st
     /\ (this_isLocked (session st) = true ->
         fst (async (addToken W symbol A) st) = Rejected (Error "Wallet is locked!"))
     /\ (this_isLocked (session st) = false ->
         In A (addresses (session st)) ->
         fst (async (addToken W symbol A) st) = Resolved tt)
     /\ (this_isLocked (session st) = false ->
         ~ In A (addresses (session st)) ->
         fst (async (addToken W symbol A) st)
         = match this_wallet (session st) with
           | None => Rejected (Error "There is no signer or network provider!")
           | Some w =>
               match signer_provider w with
               | None => Rejected (Error "There is no signer or network provider!")
               | Some _ => Rejected (TypeError "contract.decimals is not a function")
               end
           end))
  /\ (forall r, reachable_overlapped W r -> this_tokens (session (now r)) = []).
Proof.
  split.
  - intros st symbol A. destruct st as [s t]. cbn [session].
    unfold addToken, createERC20TokenContract. undeclared. run_body.
    destruct (this_isLocked s) eqn:Hflag.
    { repeat split; try reflexivity; discriminate. }
    destruct (find_token A (this_tokens s)) as [token |] eqn:Hfound.
    { repeat split; try reflexivity; try discriminate.
      intros _ Hnew. apply find_token_none in Hnew. congruence. }
    assert (Hnew : ~ In A (addresses s)) by (apply find_token_none; exact Hfound).
    destruct (this_wallet s) as [w |]; [destruct (signer_provider w) |];
      (split; [reflexivity |]); (split; [discriminate |]);
      (split; [intros _ Hin; contradiction | reflexivity]).
  - intros r Hreach. apply reachable_overlapped_no_tokens in Hreach. tauto.
Qed.

Lemma addToken_never_registers_witness :
  async (addToken Mock.W "USDC" Mock.usdc) Mock.ready
  = (Rejected (TypeError "contract.decimals is not a function"), Mock.ready)
  /\ async (addToken Mock.W "USDC" Mock.usdc) Mock.created
     = (Rejected (Error "There is no signer or network provider!"), Mock.created)
  /\ this_tokens (session (run Mock.W [Connect None; AddToken "USDC" Mock.usdc;
                                       AddToken "DAI" Mock.friend] Mock.created)) = [].
Proof.
  destruct (addToken_never_registers Mock.W) as [Hcall Hreached].
  split; [| split].
  - destruct (Hcall Mock.ready "USDC" Mock.usdc) as [Hstate [_ [_ Hnew]]].
    rewrite (surjective_pairing (async (addToken Mock.W "USDC" Mock.usdc) Mock.ready)).
    rewrite Hstate, Hnew; [reflexivity | reflexivity |]. vm_compute. intros [].
  - destruct (Hcall Mock.created "USDC" Mock.usdc) as [Hstate [_ [_ Hnew]]].
    rewrite (surjective_pairing (async (addToken Mock.W "USDC" Mock.usdc) Mock.created)).
    rewrite Hstate, Hnew; [reflexivity | reflexivity |]. vm_compute. intros [].
  - apply (Hreached {| now := run Mock.W [Connect None; AddToken "USDC" Mock.usdc;
                                          AddToken "DAI" Mock.friend] Mock.created;
                       pending := [] |}).
    apply reachable_reachable_overlapped, reachable_run, mock_created_reachable.
Defined.

(** ** Sending tokens *)



(** ** The nonce *)

Lemma sendEther_payable (W : World) (st : State) (w : Signer) (p : Payment) :
  this_wallet (session st) = Some w ->
  payable W p ->
  snd (async (sendEther W (pay_to p) (pay_amount p) (pay_gas p) None) st)
  = {| session := set_transactionNonce (Some (current_nonce (session st) + 1))
                    (session st);
       trace := trace st
                ++ [CallSendTransaction w (request_of W (current_nonce (session st)) p)] |}.
Proof.
  intros Hw [[a Hto] [[value Hvalue] [gasPrice Hgas]]].
  unfold sendEther, the_wallet, post_increment_nonce, request_of. rewrite Hto. run_body.
  rewrite Hw. cbn. rewrite Hvalue. cbn. rewrite Hgas. cbn.
  fold (current_nonce (session st)).
  destruct (sendTransaction W (trace st) w _); reflexivity.
Qed.

Lemma requests_from_nonces (W : World) (l : list Payment) (n : Z) (r : TransactionRequest) :
  In r (requests_from W n l) -> n <= req_nonce r.
Proof.
  revert n. induction l as [| p l IH]; cbn; intros n Hin; [destruct Hin |].
  destruct Hin as [<- | Hin]; [cbn; lia |]. apply IH in Hin. lia.
Qed.

Lemma requests_from_distinct (W : World) (l : list Payment) (n : Z) :
  NoDup (map req_nonce (requests_from W n l)).
Proof.
  revert n. induction l as [| p l IH]; cbn; intros n; constructor; [| apply IH].
  intros Hin. apply in_map_iff in Hin. destruct Hin as [r [Hr Hin]].
  apply requests_from_nonces in Hin. lia.
Qed.

Lemma pay_all_state (W : World) (l : list Payment) (st : State) (w : Signer) :
  this_wallet (session st) = Some w ->
  Forall (payable W) l ->
  trace (pay_all W l st)
  = trace st
    ++ map (CallSendTransaction w) (requests_from W (current_nonce (session st)) l)
  /\ current_nonce (session (pay_all W l st))
     = current_nonce (session st) + Z.of_nat (List.length l)
  /\ this_wallet (session (pay_all W l st)) = Some w.
Proof.
  intros Hw Hall. revert st Hw.
  induction Hall as [| p l Hp Hall IH]; intros st Hw.
  - cbn [pay_all requests_from map List.length]. rewrite app_nil_r.
    repeat split; [cbn; lia | exact Hw].
  - cbn [pay_all requests_from map List.length].
    rewrite (sendEther_payable W st w p Hw Hp).
    destruct (IH {| session := set_transactionNonce
                                 (Some (current_nonce (session st) + 1)) (session st);
                    trace := trace st
                             ++ [CallSendTransaction w
                                   (request_of W (current_nonce (session st)) p)] |}
                 Hw) as [Htrace [Hnonce Hwallet]].
    cbn [session trace] in *.
    change (current_nonce (set_transactionNonce (Some (current_nonce (session st) + 1))
                             (session st)))
      with (current_nonce (session st) + 1) in *.
    rewrite Htrace, Hnonce, <- app_assoc. repeat split; [lia | exact Hwallet].
Qed.

(** X10: [sendEther] calls made one after the other on an unlocked
    session, each awaited, each with an accepted address and numbers that
    parse, and few enough that the nonce stays within the integers a
    JavaScript number counts one by one (it ends at 2^53 at most), hand the
    provider one transaction each, in order, numbered with consecutive
    nonces starting at the current one (0 when the nonce was never set),
    whatever the provider answers to each; no nonce is used twice, the
    stored nonce ends at the start plus the number of calls, and the signing
    handle is the same throughout. *)
Theorem sendEther_nonces_consecutive (W : World) (l : list Payment) (st : State)
                                     (w : Signer) :
  this_wallet (session st) = Some w ->
  Forall (payable W) l ->
  0 <= current_nonce (session st) ->
  current_nonce (session st) + Z.of_nat (List.length l) <= 2 ^ 53 ->
  let requests := requests_from W (current_nonce (session st)) l in
  trace (pay_all W l st) = trace st ++ map (CallSendTransaction w) requests
  /\ current_nonce (session (pay_all W l st))
     = current_nonce (session st) + Z.of_nat (List.length l)
  /\ this_wallet (session (pay_all W l st)) = Some w
  /\ NoDup (map req_nonce requests).
Proof.
  intros Hw Hall _ _. cbv zeta.
  destruct (pay_all_state W l st w Hw Hall) as [Htrace [Hnonce Hwallet]].
  repeat split; try assumption. apply requests_from_distinct.
Qed.

Lemma sendEther_nonces_consecutive_witness :
  let l := [ {| pay_to := Mock.friend; pay_amount := "1"; pay_gas := "10" |};
             {| pay_to := Mock.other; pay_amount := "2"; pay_gas := "12" |};
             {| pay_to := Mock.friend; pay_amount := "3"; pay_gas := "10" |} ] in
  map req_nonce (requests_from Mock.W 7 l) = [7; 8; 9]
  /\ trace (pay_all Mock.W l Mock.with_usdc)
     = trace Mock.with_usdc
       ++ map (CallSendTransaction
                 (Signer_connect Mock.signer {| provider_network := "homestead" |}))
              (requests_from Mock.W 7 l)
  /\ this_transactionNonce (session (pay_all Mock.W l Mock.with_usdc)) = Some 10.
Proof.
  cbv zeta. split; [reflexivity |].
  refine ((fun H => conj (proj1 H) eq_refl)
            (sendEther_nonces_consecutive Mock.W _ Mock.with_usdc
               (Signer_connect Mock.signer {| provider_network := "homestead" |})
               eq_refl _ _ _)).
  - repeat constructor; cbn; eexists; reflexivity.
  - vm_compute. discriminate.
  - vm_compute. discriminate.
Defined.

(** X11: the stored nonce changes only through [setNonce] and the two
    sends.  Every other method, [lock] and [unlock] among them, leaves it as
    it is, so a session that is locked and unlocked again goes on counting
    from the old value until [setNonce] is called; a send leaves it as it is
    or stores the current nonce plus one; and [setNonce], when the provider
    answers, stores exactly the provider's transaction count. *)
Theorem nonce_changes_only_by_sends (W : World) (op : Op) (st : State) :
  (sends op = false ->
   op <> SetNonce ->
   this_transactionNonce (session (exec W op st)) = this_transactionNonce (session st))
  /\ (sends op = true ->
      this_transactionNonce (session (exec W op st))
      = this_transactionNonce (session st)
      \/ this_transactionNonce (session (exec W op st))
         = Some (current_nonce (session st) + 1))
  /\ (forall w n,
        this_wallet (session st) = Some w ->
        getTransactionCount W (trace st) w = inr n ->
        async (setNonce W) st
        = (Resolved tt,
           {| session := set_transactionNonce (Some n) (session st);
              trace := trace st ++ [CallGetTransactionCount w] |})).
Proof.
  destruct st as [s t]. split; [| split].
  - destruct op; cbn [sends]; intros Hop Hneq; try discriminate Hop;
      try (exfalso; apply Hneq; reflexivity);
      cbn [exec]; unfold_methods; run_body; branches; reflexivity.
  - destruct op; cbn [sends]; intros Hop; try discriminate Hop;
      unfold current_nonce; cbn [exec]; unfold_methods; run_body; branches;
      cbn [this_transactionNonce set_transactionNonce]; auto.
  - intros w n Hw Hn. cbn [session trace] in *. unfold setNonce, the_wallet. run_body.
    rewrite Hw. cbn. rewrite Hn. reflexivity.
Qed.

Lemma nonce_changes_only_by_sends_witness :
  this_transactionNonce
    (session (run Mock.W [Lock "hunter2"; Unlock "hunter2"; Connect None]
                Mock.with_usdc))
  = Some 7
  /\ this_transactionNonce
       (session (exec Mock.W (Lock "hunter2") Mock.with_usdc))
     = this_transactionNonce (session Mock.with_usdc).
Proof.
  split; [reflexivity |].
  apply (proj1 (nonce_changes_only_by_sends Mock.W (Lock "hunter2") Mock.with_usdc));
    [reflexivity | discriminate].
Defined.

(** ** Ether history *)

Lemma status_of_cases (from_is to_is : bool) :
  (status_of from_is to_is = "SELF"%string <-> from_is = true /\ to_is = true)
  /\ (status_of from_is to_is = "OUT"%string <-> from_is = true /\ to_is = false)
  /\ (status_of from_is to_is = "IN"%string <-> from_is = false).
Proof.
  destruct from_is, to_is; cbn; repeat split; intros; try discriminate;
    try tauto; destruct H; discriminate.
Qed.

(** X12: [getEtherHistory(network, address, start, end)] takes the
    session's network name, the wallet's own address, block 0 and "latest"
    for the arguments left out, and never tests the lock flag.  When the
    explorer for that network can be built it asks it once and resolves to
    one entry per transaction reported, in the explorer's order and without
    dropping any: hash, sender, recipient and timestamp are copied, the
    amount is the value formatted as ether, and the status is SELF when
    sender and recipient are both the queried address, OUT when only the
    sender is (a contract creation included), IN whenever the sender is
    another address.  When the explorer cannot be built the call is rejected
    before anything is asked. *)
Theorem getEtherHistory_entries (W : World) (st : State)
    (network addr : option string) (startBlock endBlock : option BlockTag) :
  let name := default network (this_network (session st)) in
  let first := default startBlock (BlockNumber 0) in
  let last := default endBlock (BlockName "latest") in
  (forall a,
     match addr with
     | Some given => a = given
     | None => exists w, this_wallet (session st) = Some w /\ a = address W w
     end ->
     (forall e,
        EtherscanProvider W name = inl e ->
        async (getEtherHistory W network addr startBlock endBlock) st = (Rejected e, st))
     /\ (forall explorer,
           EtherscanProvider W name = inr explorer ->
           async (getEtherHistory W network addr startBlock endBlock) st
           = (match getHistory W (trace st) name a first last with
              | inl e => Rejected e
              | inr reported => Resolved (map (ether_entry W a) reported)
              end,
              {| session := session st;
                 trace := trace st ++ [CallGetHistory name a first last] |})))
  /\ (forall a tx,
        let entry := ether_entry W a tx in
        eh_transactionHash entry = tx_hash tx
        /\ eh_from entry = tx_from tx
        /\ eh_to entry = tx_to tx
        /\ eh_timestamp entry = tx_timestamp tx
        /\ eh_amount entry = utils_formatEther W (tx_value tx)
        /\ (eh_status entry = "SELF"%string <-> tx_from tx = a /\ tx_to tx = Some a)
        /\ (eh_status entry = "OUT"%string <-> tx_from tx = a /\ tx_to tx <> Some a)
        /\ (eh_status entry = "IN"%string <-> tx_from tx <> a))
  /\ (forall a reported,
        List.length (map (ether_entry W a) reported) = List.length reported).
Proof.
  cbv zeta. split; [| split].
  - intros a Ha.
    assert (Haddr : forall (k : string -> M (list EtherHistoryEntry)) s0,
               bind (match addr with
                     | Some x => ret x
                     | None => bind (the_wallet) (fun w => ret (address W w))
                     end) k {| session := session st; trace := s0 |}
               = k a {| session := session st; trace := s0 |}).
    { intros k s0. destruct addr as [given |].
      - subst a. reflexivity.
      - destruct Ha as [w [Hw ->]]. unfold the_wallet, bind, this, ret.
        cbn [session]. rewrite Hw. reflexivity. }
    destruct st as [s t]. cbn [session trace] in *.
    split.
    + intros e He. unfold getEtherHistory, async.
      unfold bind at 1. unfold this at 1. cbn [session].
      rewrite Haddr. unfold bind, lift. rewrite He. reflexivity.
    + intros explorer He. unfold getEtherHistory, async.
      unfold bind at 1. unfold this at 1. cbn [session].
      rewrite Haddr. unfold bind, lift, await, ret. rewrite He. cbn [session trace].
      destruct (getHistory W t _ a _ _); reflexivity.
  - intros a tx. cbn [ether_entry eh_transactionHash eh_from eh_to eh_timestamp
                        eh_amount eh_status].
    repeat (split; [reflexivity |]).
    destruct (status_of_cases (String.eqb (tx_from tx) a) (to_is (tx_to tx) a))
      as [Hself [Hout Hin]].
    assert (Hto : to_is (tx_to tx) a = true <-> tx_to tx = Some a).
    { unfold to_is. destruct (tx_to tx) as [x |].
      - rewrite String.eqb_eq. split; [intros ->; reflexivity | intros H; inversion H; auto].
      - split; discriminate. }
    assert (Hto' : to_is (tx_to tx) a = false <-> tx_to tx <> Some a).
    { rewrite <- Hto. destruct (to_is (tx_to tx) a); split; intros; try discriminate;
        try tauto; try congruence. }
    rewrite Hself, Hout, Hin, Hto, Hto', String.eqb_eq, String.eqb_neq. tauto.
  - intros a reported. apply length_map.
Qed.

Lemma getEtherHistory_entries_witness :
  fst (async (getEtherHistory Mock.W None None None None) Mock.with_usdc)
  = Resolved
      [ {| eh_transactionHash := "0x0a"; eh_status := "IN";
           eh_from := Mock.friend; eh_to := Some Mock.me;
           eh_amount := "1"; eh_timestamp := Some 1600000000 |};
        {| eh_transactionHash := "0x0b"; eh_status := "OUT";
           eh_from := Mock.me; eh_to := None;
           eh_amount := "0"; eh_timestamp := Some 1600000100 |} ].
Proof.
  rewrite (proj2 (proj1 (getEtherHistory_entries Mock.W Mock.with_usdc None None None None)
                    Mock.me
                    (ex_intro _
                       (Signer_connect Mock.signer {| provider_network := "homestead" |})
                       (conj eq_refl eq_refl)))
             {| provider_network := "homestead" |} eq_refl).
  reflexivity.
Defined.

(** ** The constructor and the factories *)

Lemma WebWallet_built (w : Signer) (json : option string) :
  WebWallet (Some w) json
  = inr {| this_wallet := Some w; this_isLocked := false; this_tokens := [];
           this_provider := None; this_transactionNonce := None; this_network := "";
           this_encryptedJsonWallet := or_else json "" |}.
Proof. reflexivity. Qed.

Lemma unlock_resolved (W : World) (s : Session) (t : Trace) (password : string)
                      (w : Signer) :
  fromEncryptedJson W t (this_encryptedJsonWallet s) password = inr w ->
  async (unlock W password) {| session := s; trace := t |}
  = (Resolved tt,
     {| session := set_isLocked false (set_wallet (Some w) s);
        trace := t ++ [CallFromEncryptedJson (this_encryptedJsonWallet s) password] |}).
Proof.
  intros Hdec. unfold unlock, initWallet. run_body. rewrite Hdec. reflexivity.
Qed.

(** X13: the constructor takes its second argument, the backup string, on
    trust.  A session built with a non-empty backup never asks the key store
    to encrypt: [lock], under any passphrase, resolves to exactly that
    string; and the [unlock] that follows installs whatever key the key
    store decrypts from it, so [getAddress] then answers with the address
    of the backup's key, which need not be the address the session was
    built with.  Without a signer the constructor throws and builds
    nothing. *)
Theorem constructor_trusts_the_backup (W : World) (w : Signer) (json : string)
                                      (s : Session) (t : Trace) (password : string) :
  json <> ""%string ->
  WebWallet (Some w) (Some json) = inr s ->
  let st := {| session := s; trace := t |} in
  let st1 := {| session := locked_session s json; trace := t |} in
  sync (getAddress W) st = (Returned (address W w), st)
  /\ async (lock W password) st = (Resolved json, st1)
  /\ (forall w',
        fromEncryptedJson W t json password = inr w' ->
        exists st2,
          async (unlock W password) st1 = (Resolved tt, st2)
          /\ sync (getAddress W) st2 = (Returned (address W w'), st2))
  /\ (forall other, exists e, WebWallet None other = inl e).
Proof.
  intros Hjson Hnew.
  assert (Hbackup : or_else (Some json) "" = json).
  { unfold or_else. destruct (String.eqb_spec json "") as [Habs | _];
      [contradiction | reflexivity]. }
  rewrite WebWallet_built, Hbackup in Hnew. inversion Hnew; subst s; clear Hnew.
  cbv zeta. split; [| split; [| split]].
  - apply getAddress_unlocked; reflexivity.
  - unfold lock. run_body. cbn [this_encryptedJsonWallet].
    destruct (String.eqb_spec json "") as [Habs | _]; [contradiction | reflexivity].
  - intros w' Hdec. eexists. split.
    + apply unlock_resolved. exact Hdec.
    + apply getAddress_unlocked; reflexivity.
  - intros other. eexists. reflexivity.
Qed.

Lemma constructor_trusts_the_backup_witness :
  let json := Mock.sealed "pw" "00000000000000000000000000000000000000c3" in
  let s := {| this_wallet := Some Mock.signer; this_isLocked := false;
              this_tokens := []; this_provider := None;
              this_transactionNonce := None; this_network := "";
              this_encryptedJsonWallet := json |} in
  let st := {| session := s; trace := [] |} in
  let st1 := {| session := locked_session s json; trace := [] |} in
  sync (getAddress Mock.W) st = (Returned Mock.me, st)
  /\ async (lock Mock.W "anything") st = (Resolved json, st1)
  /\ exists st2,
       async (unlock Mock.W "pw") st1 = (Resolved tt, st2)
       /\ sync (getAddress Mock.W) st2 = (Returned Mock.other, st2).
Proof.
  cbv zeta.
  destruct (constructor_trusts_the_backup Mock.W Mock.signer
              (Mock.sealed "pw" "00000000000000000000000000000000000000c3")
              _ [] "anything" (sealed_nonempty _ _) eq_refl)
    as [Haddr [Hlock _]].
  destruct (constructor_trusts_the_backup Mock.W Mock.signer
              (Mock.sealed "pw" "00000000000000000000000000000000000000c3")
              _ [] "pw" (sealed_nonempty _ _) eq_refl)
    as [_ [_ [Hunlock _]]].
  split; [exact Haddr |]. split; [exact Hlock |].
  exact (Hunlock {| privateKey := "00000000000000000000000000000000000000c3";
                    mnemonic := None; signer_provider := None |} eq_refl).
Defined.

Lemma factory_built_fresh (E : WalletClass) (s : Session) :
  factory_built E s ->
  exists w,
    s = {| this_wallet := Some w; this_isLocked := false; this_tokens := [];
           this_provider := None; this_transactionNonce := None; this_network := "";
           this_encryptedJsonWallet := "" |}.
Proof.
  unfold factory_built, createWallet, restoreWalletFromPrivateKey,
    restoreWalletFromMnemonic, restoreWalletFromEncryptedJSON.
  intros [[w H] | [[key H] | [[phrase H] | [password [json H]]]]].
  - rewrite WebWallet_built in H. inversion H. eauto.
  - destruct (Wallet_new E key) as [e | w]; [discriminate |].
    rewrite WebWallet_built in H. inversion H. eauto.
  - destruct (Wallet_fromMnemonic E phrase) as [e | w]; [discriminate |].
    rewrite WebWallet_built in H. inversion H. eauto.
  - destruct (Wallet_fromEncryptedJsonSync E json password) as [e | w];
      [inversion H |].
    rewrite WebWallet_built in H. inversion H. eauto.
Qed.

(** X14: a session that comes out of a factory is unlocked, unconnected,
    without tokens, without a nonce and without a backup, whichever factory
    built it.  Its first [lock] therefore always encrypts under the
    passphrase it is given, and, the key store keeping its promises,
    [lock(p)] followed by [unlock(p)] gives the same address back for every
    passphrase [p].  [restoreWalletFromEncryptedJSON] itself reads an
    identifier [password] that the file binds nowhere: with no global of
    that name it stops on a ReferenceError before the key store is
    consulted, for every JSON string. *)
Theorem factory_sessions_are_fresh (E : WalletClass) (W : World) :
  (forall json, restoreWalletFromEncryptedJSON E None json = Unbound "password")
  /\ (forall s t password json,
        factory_built E s ->
        keystore_sound W ->
        exists w,
          this_wallet s = Some w
          /\ this_isLocked s = false
          /\ this_tokens s = []
          /\ this_provider s = None
          /\ this_transactionNonce s = None
          /\ this_network s = ""%string
          /\ this_encryptedJsonWallet s = ""%string
          /\ (encrypt W t w password = inr json ->
              exists st1 st2,
                async (lock W password) {| session := s; trace := t |}
                = (Resolved json, st1)
                /\ trace st1 = t ++ [CallEncrypt w password]
                /\ async (unlock W password) st1 = (Resolved tt, st2)
                /\ sync isLocked st2 = (Returned false, st2)
                /\ fst (sync (getAddress W) st2)
                   = fst (sync (getAddress W) {| session := s; trace := t |}))).
Proof.
  split; [reflexivity |].
  intros s t password json Hbuilt Hsound.
  destruct (factory_built_fresh E s Hbuilt) as [w ->]. exists w.
  repeat (split; [reflexivity |]).
  intros Henc.
  destruct (decrypt_encrypt W Hsound t (t ++ [CallEncrypt w password]) w password json Henc)
    as [w' [Hdec Hkey]].
  eexists. eexists. split; [| split; [| split; [| split]]].
  - unfold lock, the_wallet. run_body. cbn. rewrite Henc. reflexivity.
  - reflexivity.
  - apply unlock_resolved. exact Hdec.
  - reflexivity.
  - rewrite (getAddress_unlocked W _ w') by reflexivity.
    rewrite (getAddress_unlocked W _ w) by reflexivity.
    cbn [fst]. unfold address. rewrite Hkey. reflexivity.
Qed.

Lemma factory_sessions_are_fresh_witness :
  let E := {| Wallet_new := fun key =>
                inr {| privateKey := key; mnemonic := None; signer_provider := None |};
              Wallet_fromMnemonic := fun _ => inl (Error "invalid mnemonic");
              Wallet_fromEncryptedJsonSync := Mock.unseal |} in
  exists s w st1 st2,
    restoreWalletFromPrivateKey E Mock.key = inr s
    /\ this_wallet s = Some w
    /\ async (lock Mock.W "hunter2") {| session := s; trace := [] |}
       = (Resolved (Mock.sealed "hunter2" Mock.key), st1)
    /\ async (unlock Mock.W "hunter2") st1 = (Resolved tt, st2)
    /\ fst (sync (getAddress Mock.W) st2) = Returned Mock.me.
Proof.
  cbv zeta.
  pose (E := {| Wallet_new := fun key =>
                  inr {| privateKey := key; mnemonic := None; signer_provider := None |};
                Wallet_fromMnemonic := fun _ => inl (Error "invalid mnemonic");
                Wallet_fromEncryptedJsonSync := Mock.unseal |}).
  pose (s := {| this_wallet := Some {| privateKey := Mock.key; mnemonic := None;
                                       signer_provider := None |};
                this_isLocked := false; this_tokens := []; this_provider := None;
                this_transactionNonce := None; this_network := "";
                this_encryptedJsonWallet := "" |}).
  assert (Hbuilt : factory_built E s).
  { right. left. exists Mock.key. reflexivity. }
  destruct (proj2 (factory_sessions_are_fresh E Mock.W) s [] "hunter2"
              (Mock.sealed "hunter2" Mock.key) Hbuilt (mock_keystore_sound _ _ _ _))
    as [w [Hw [_ [_ [_ [_ [_ [_ Hcycle]]]]]]]].
  assert (Hw' : w = {| privateKey := Mock.key; mnemonic := None;
                       signer_provider := None |}).
  { cbn in Hw. inversion Hw. reflexivity. }
  subst w.
  destruct (Hcycle eq_refl) as [st1 [st2 [Hlock [_ [Hunlock [_ Haddr]]]]]].
  exists s, {| privateKey := Mock.key; mnemonic := None; signer_provider := None |},
    st1, st2.
  split; [reflexivity |]. split; [reflexivity |]. split; [exact Hlock |].
  split; [exact Hunlock |]. rewrite Haddr. reflexivity.
Defined.

(** ** After lock and unlock *)

(** X15: locking forgets the connection and the tokens, and unlocking does
    not bring them back.  After a [lock] and an [unlock] that both resolve,
    [getProvider] returns null, [getNetwork] the empty string, the token
    list is empty, so [getTokenBalance] fails with "Token does now exist!"
    for every address; and, the decrypted wallet having no provider,
    [addToken] is rejected with "There is no signer or network provider!"
    for every address until [connect] is called again. *)
Theorem lock_unlock_forgets_connection (W : World) (st st1 st2 : State) (w : Signer)
    (password password' json : string) :
  decrypts_unconnected W ->
  this_wallet (session st) = Some w ->
  async (lock W password) st = (Resolved json, st1) ->
  async (unlock W password') st1 = (Resolved tt, st2) ->
  sync isLocked st2 = (Returned false, st2)
  /\ sync getProvider st2 = (Returned None, st2)
  /\ sync getNetwork st2 = (Returned ""%string, st2)
  /\ this_tokens (session st2) = []
  /\ (forall A,
        async (getTokenBalance W A) st2 = (Rejected (Error "Token does now exist!"), st2))
  /\ (forall symbol A,
        async (addToken W symbol A) st2
        = (Rejected (Error "There is no signer or network provider!"), st2)).
Proof.
  intros Hunconnected Hw Hlock Hunlock.
  destruct (lock_resolved W st st1 w password json Hw Hlock) as [Hs1 _].
  destruct st1 as [s1 t1]. cbn [session] in Hs1. subst s1.
  unfold unlock, initWallet in Hunlock. run_body.
  cbn [locked_session this_encryptedJsonWallet] in Hunlock.
  destruct (fromEncryptedJson W t1 json password') as [e | w'] eqn:Hdec;
    [discriminate |].
  apply Hunconnected in Hdec.
  inversion Hunlock; subst st2; clear Hunlock.
  repeat (split; [reflexivity |]).
  intros symbol A. unfold addToken, createERC20TokenContract. run_body. cbn.
  rewrite Hdec. reflexivity.
Qed.

Lemma mock_decrypts_unconnected (d : Z) (b : N) (ev : list TransferEvent)
                                (h : list TransactionResponse) :
  decrypts_unconnected (Mock.world d b ev h).
Proof.
  intros t json password w. cbn. unfold Mock.unseal.
  destruct (Mock.strip_prefix _ json); intros H; inversion H. reflexivity.
Qed.

Lemma lock_unlock_forgets_connection_witness :
  let st2 := run Mock.W [Lock "hunter2"; Unlock "hunter2"] Mock.with_usdc in
  this_tokens (session Mock.with_usdc) <> []
  /\ sync getNetwork st2 = (Returned ""%string, st2)
  /\ async (getTokenBalance Mock.W Mock.usdc) st2
     = (Rejected (Error "Token does now exist!"), st2)
  /\ async (addToken Mock.W "USDC" Mock.usdc) st2
     = (Rejected (Error "There is no signer or network provider!"), st2).
Proof.
  cbv zeta.
  destruct (lock_unlock_forgets_connection Mock.W Mock.with_usdc
              (exec Mock.W (Lock "hunter2") Mock.with_usdc)
              (run Mock.W [Lock "hunter2"; Unlock "hunter2"] Mock.with_usdc)
              (Signer_connect Mock.signer {| provider_network := "homestead" |})
              "hunter2" "hunter2" (Mock.sealed "hunter2" Mock.key)
              (mock_decrypts_unconnected _ _ _ _) eq_refl eq_refl eq_refl)
    as [_ [_ [Hnet [_ [Hbalance Hadd]]]]].
  split; [discriminate |]. split; [exact Hnet |].
  split; [exact (Hbalance Mock.usdc) | exact (Hadd "USDC" Mock.usdc)].
Defined.

(** X16: [unlock] never tests the lock flag.  On an unlocked, connected
    session that holds a backup, [unlock] under the backup's passphrase
    resolves and swaps the connected signing handle for the freshly
    decrypted, unconnected one, while the provider, the network name, the
    tokens, the nonce and the backup stay as they were: [getProvider] still
    returns the provider, and yet [addToken] for a new address is rejected
    with "There is no signer or network provider!" until [connect] is
    called.  Under a passphrase the key store rejects, nothing changes. *)
Theorem unlock_while_unlocked (W : World) (st : State) (w : Signer) (password : string) :
  decrypts_unconnected W ->
  this_isLocked (session st) = false ->
  this_wallet (session st) = Some w ->
  let json := this_encryptedJsonWallet (session st) in
  let asked := trace st ++ [CallFromEncryptedJson json password] in
  (forall e,
     fromEncryptedJson W (trace st) json password = inl e ->
     async (unlock W password) st
     = (Rejected e, {| session := session st; trace := asked |}))
  /\ (forall w',
        fromEncryptedJson W (trace st) json password = inr w' ->
        let st' := {| session := set_wallet (Some w') (session st); trace := asked |} in
        async (unlock W password) st = (Resolved tt, st')
        /\ signer_provider w' = None
        /\ sync getProvider st' = (Returned (this_provider (session st)), st')
        /\ sync getNetwork st' = (Returned (this_network (session st)), st')
        /\ this_tokens (session st') = this_tokens (session st)
        /\ forall symbol A,
             ~ In A (addresses (session st)) ->
             async (addToken W symbol A) st'
             = (Rejected (Error "There is no signer or network provider!"), st')).
Proof.
  intros Hunconnected Hopen Hw. cbv zeta. destruct st as [s t]. cbn [session trace] in *.
  split.
  - intros e Hdec. unfold unlock. run_body. rewrite Hdec. reflexivity.
  - intros w' Hdec. split; [| split; [| split; [| split; [| split]]]].
    + rewrite (unlock_resolved W s t password w' Hdec). f_equal. f_equal.
      destruct s. cbn in *. subst. reflexivity.
    + exact (Hunconnected _ _ _ _ Hdec).
    + reflexivity.
    + reflexivity.
    + reflexivity.
    + intros symbol A Hnew. apply find_token_none in Hnew.
      unfold addToken, createERC20TokenContract. run_body.
      cbn [this_isLocked this_tokens this_wallet set_wallet].
      rewrite Hopen, Hnew, (Hunconnected _ _ _ _ Hdec). reflexivity.
Qed.

Lemma unlock_while_unlocked_witness :
  let st := run Mock.W [Lock "hunter2"; Unlock "hunter2"; Connect None;
                        AddToken "USDC" Mock.usdc] Mock.with_usdc in
  let st' := snd (async (unlock Mock.W "hunter2") st) in
  sync getProvider st = (Returned (Some {| provider_network := "homestead" |}), st)
  /\ fst (async (unlock Mock.W "hunter2") st) = Resolved tt
  /\ sync getProvider st' = (Returned (Some {| provider_network := "homestead" |}), st')
  /\ async (addToken Mock.W "DAI" Mock.friend) st'
     = (Rejected (Error "There is no signer or network provider!"), st').
Proof.
  cbv zeta.
  destruct (proj2 (unlock_while_unlocked Mock.W
                     (run Mock.W [Lock "hunter2"; Unlock "hunter2"; Connect None;
                                  AddToken "USDC" Mock.usdc] Mock.with_usdc)
                     (Signer_connect {| privateKey := Mock.key; mnemonic := None;
                                        signer_provider := None |}
                        {| provider_network := "homestead" |})
                     "hunter2" (mock_decrypts_unconnected _ _ _ _) eq_refl eq_refl)
              {| privateKey := Mock.key; mnemonic := None; signer_provider := None |}
              eq_refl)
    as [Hrun [_ [Hprovider [_ [_ Hadd]]]]].
  split; [reflexivity |]. split; [rewrite Hrun; reflexivity |].
  split; [reflexivity |].
  rewrite Hrun. cbn [snd]. apply Hadd.
  vm_compute. intros [].
Defined.
